(** * Flow estimation backend

    A shallow embedding of [yolov4.py] (the per-video pipeline
    [detect_cars]) and of the request handlers of [app.py] that create,
    approve and reject activities, together with the properties of the
    pipeline and of the activity store that are established from them.

    Conventions.
    - Python [int] is [Z]; list indices are [nat].
    - [time.time()] readings and the value returned by [detect_cars] are
      rationals ([Q]); the rounding of IEEE doubles is not modelled, so a
      mean is the exact quotient, kept in lowest terms.
    - A Python [dict] or [set] is a [gmap] or [gset]; a [deque] that is only
      appended to on the right and popped on the left is a list whose head
      is the left end.
    - An exception is the [Raise] result of the [outcome] type; what the
      code does to the outside world is recorded as a list of events. *)

From Stdlib Require Import QArith Lqa ZArith List Sorted Ascii String.
From stdpp Require Import gmap strings list fin_maps sorting.
Import ListNotations.

(** ** Python-level notions shared by both source files *)
Module Py.

(** The exception classes that the two files can meet, all of them
    subclasses of [Exception]. [CvError] stands for [cv2.error],
    [OptimizerError] for whatever [optimize_traffic] may raise. *)
Inductive exn : Type :=
| OSError
| ValueError
| FileNotFoundError
| FileExistsError
| IndexError
| CvError
| OptimizerError.

Inductive outcome (A : Type) : Type :=
| Ret (a : A)
| Raise (e : exn).
Arguments Ret {A} a.
Arguments Raise {A} e.

Definition returned {A} (o : outcome A) : Prop := ∃ a, o = Ret a.

#[global] Instance outcome_ret : MRet outcome := λ A a, Ret a.
#[global] Instance outcome_bind : MBind outcome := λ A B f m,
  match m with
  | Ret a => f a
  | Raise e => Raise e
  end.

(** [l[i]] for a non-negative index. *)
Definition getitem {A} (l : list A) (i : nat) : outcome A :=
  match l !! i with
  | Some a => Ret a
  | None => Raise IndexError
  end.

(** [[l[i] for i in idx]] *)
Fixpoint getitems {A} (l : list A) (idx : list nat) : outcome (list A) :=
  match idx with
  | [] => Ret []
  | i :: idx' =>
      a ← getitem l i;
      rest ← getitems l idx';
      Ret (a :: rest)
  end.

(** [s in l] for a list of strings. *)
Definition contains (l : list string) (s : string) : bool :=
  existsb (String.eqb s) l.

(** [str.isspace] on the ASCII range. *)
Definition isspace (c : ascii) : bool :=
  let n := nat_of_ascii c in
  ((9 <=? n) && (n <=? 13) || (28 <=? n) && (n <=? 32))%nat.

Fixpoint lstrip_chars (cs : list ascii) : list ascii :=
  match cs with
  | [] => []
  | c :: cs' => if isspace c then lstrip_chars cs' else cs
  end.

(** [s.strip()] *)
Definition strip (s : string) : string :=
  string_of_list_ascii
    (rev (lstrip_chars (rev (lstrip_chars (list_ascii_of_string s))))).

(** [s.lower()] on the ASCII range. *)
Definition lower_char (c : ascii) : ascii :=
  let n := nat_of_ascii c in
  if ((65 <=? n) && (n <=? 90))%nat then ascii_of_nat (n + 32) else c.

Definition lower (s : string) : string :=
  string_of_list_ascii (map lower_char (list_ascii_of_string s)).

Definition dot : ascii := "."%char.

(** ["." in s] *)
Definition has_dot (s : string) : bool :=
  existsb (Ascii.eqb dot) (list_ascii_of_string s).

Fixpoint take_until_dot (cs : list ascii) : list ascii :=
  match cs with
  | [] => []
  | c :: cs' => if Ascii.eqb dot c then [] else c :: take_until_dot cs'
  end.

(** [s.rsplit(".", 1)[1]] for an [s] that contains a dot: what follows
    the last dot. Without a dot the list has one element and the index
    raises. *)
Definition rsplit_dot_1 (s : string) : outcome string :=
  if has_dot s
  then Ret (string_of_list_ascii
              (rev (take_until_dot (rev (list_ascii_of_string s)))))
  else Raise IndexError.

End Py.
Import Py.

(** ** yolov4.py *)
Module Yolov4.

(** *** The trailing window of per-frame counts (lines 60-66) *)

(** One entry of [car_counts]: [(current_time, car_count)]. *)
Definition sample : Type := (Q * Z)%type.

Definition Qltb (a b : Q) : bool := negb (Qle_bool b a).

(** [while car_counts and car_counts[0][0] < current_time - 30:
       car_counts.popleft()] *)
Fixpoint evict (current_time : Q) (car_counts : list sample) : list sample :=
  match car_counts with
  | [] => []
  | s :: rest =>
      if Qltb (fst s) (current_time - 30) then evict current_time rest
      else car_counts
  end.

(** [car_counts.append((current_time, car_count))] followed by the
    eviction loop. *)
Definition observe (car_counts : list sample) (s : sample) : list sample :=
  evict (fst s) (car_counts ++ [s]).

(** The deque after a whole sequence of observations, starting from
    [deque()]. *)
Definition accumulate (obs : list sample) : list sample :=
  fold_left observe obs [].

(** A sample is recent at time [now] when its timestamp is not below
    [now - 30]. *)
Definition recent (now : Q) (s : sample) : bool :=
  negb (Qltb (fst s) (now - 30)).

(** [a] was taken no later than [b]. *)
Definition earlier : relation sample := λ a b, (fst a <= fst b)%Q.

(** Timestamps never decrease along the sequence. *)
Definition clock_monotone (obs : list sample) : Prop := Sorted earlier obs.

(** *** Peaks of the retained counts (lines 68-75) *)

(** [scipy.signal.find_peaks(x)] called with no condition returns the
    first component of [_local_maxima_1d(x)], whose loop is

<<
    i = 1
    i_max = x.shape[0] - 1
    while i < i_max:
        if x[i - 1] < x[i]:
            i_ahead = i + 1
            while i_ahead < i_max and x[i_ahead] == x[i]:
                i_ahead += 1
            if x[i_ahead] < x[i]:
                left_edges[m] = i
                right_edges[m] = i_ahead - 1
                midpoints[m] = (left_edges[m] + right_edges[m]) // 2
                m += 1
                i = i_ahead
        i += 1
>>
    Indices are [nat]: for an empty [x] the bound [i_max] is [-1] in the
    library and [0] here, and the loop is not entered either way. Reads
    of [x] inside the loop are always in range; [nth] gives them. *)
Fixpoint look_ahead (fuel : nat) (x : list Z) (i i_ahead i_max : nat) : nat :=
  match fuel with
  | O => i_ahead
  | S fuel' =>
      if ((i_ahead <? i_max)%nat && (nth i_ahead x 0 =? nth i x 0)%Z)%bool
      then look_ahead fuel' x i (i_ahead + 1) i_max
      else i_ahead
  end.

Fixpoint local_maxima_loop (fuel : nat) (x : list Z) (i i_max : nat)
  : list nat :=
  match fuel with
  | O => []
  | S fuel' =>
      if (i <? i_max)%nat then
        if (nth (i - 1) x 0 <? nth i x 0)%Z then
          let i_ahead := look_ahead i_max x i (i + 1) i_max in
          if (nth i_ahead x 0 <? nth i x 0)%Z then
            ((i + (i_ahead - 1)) / 2)%nat
              :: local_maxima_loop fuel' x (i_ahead + 1) i_max
          else local_maxima_loop fuel' x (i + 1) i_max
        else local_maxima_loop fuel' x (i + 1) i_max
      else []
  end.

(** [peaks, _ = find_peaks(car_count_values)]; each loop runs at most
    [len(x)] times, which is the fuel given. *)
Definition find_peaks (x : list Z) : list nat :=
  local_maxima_loop (length x) x 1 (length x - 1).

Definition sum_Z (vs : list Z) : Z := foldr Z.add 0%Z vs.

(** [np.mean(vs)] for a non-empty list of integers. *)
Definition np_mean (vs : list Z) : Q :=
  Qred (inject_Z (sum_Z vs) / inject_Z (Z.of_nat (length vs))).

(** Lines 72-75:
    [np.mean([car_count_values[i] for i in peaks]) if peaks.size > 0 else 0] *)
Definition mean_peak_value (car_count_values : list Z) : outcome Q :=
  let peaks := find_peaks car_count_values in
  if (0 <? length peaks)%nat then
    vs ← getitems car_count_values peaks;
    Ret (np_mean vs)
  else Ret 0%Q.

(** The values read at the peaks. *)
Definition peak_values (x : list Z) : list Z :=
  map (λ i, nth i x 0%Z) (find_peaks x).

(** A run [l..r] of equal values that is higher than the sample before it
    and the sample after it. *)
Definition plateau_peak (x : list Z) (l r : nat) : Prop :=
  (1 ≤ l)%nat ∧ (l ≤ r)%nat ∧ (r + 1 < length x)%nat ∧
  (nth (l - 1) x 0 < nth l x 0)%Z ∧
  (nth (r + 1) x 0 < nth l x 0)%Z ∧
  ∀ k, (l ≤ k ≤ r)%nat → nth k x 0%Z = nth l x 0%Z.

(** A sample strictly above both neighbours. *)
Definition strict_local_max (x : list Z) (i : nat) : Prop :=
  (1 ≤ i)%nat ∧ (i + 1 < length x)%nat ∧
  (nth (i - 1) x 0 < nth i x 0)%Z ∧ (nth (i + 1) x 0 < nth i x 0)%Z.

Definition nondecreasing (x : list Z) : Prop :=
  ∀ i j, (i ≤ j < length x)%nat → (nth i x 0 <= nth j x 0)%Z.

Definition nonincreasing (x : list Z) : Prop :=
  ∀ i j, (i ≤ j < length x)%nat → (nth j x 0 <= nth i x 0)%Z.

(** *** The pipeline [detect_cars] (lines 7-84) *)

(** What one call does to the outside world, in order. *)
Inductive event : Type :=
| EvReadClasses                                  (* open('classes.txt') *)
| EvLoadModel                                    (* cv.dnn.readNet(...) *)
| EvCapture (video_file : string) (opened : bool) (* cv.VideoCapture(...) *)
| EvRelease (video_file : string)                (* cap.release() *)
| EvPrint (e : exn).                             (* print(f"Error ...") *)

(** One decoded frame: what [model.detect] answers for it (the class ids,
    or an exception) and the reading of [time.time()] taken after the
    detection. *)
Record frame : Type := {
  detect : outcome (list nat);
  clock : Q
}.

(** One [cap.read()] that does not report the end of the stream. *)
Inductive read_step : Type :=
| ReadFails (e : exn)
| ReadFrame (f : frame).

(** The files and devices the function depends on. *)
Record world : Type := {
  (** [f.readlines()] of classes.txt, or the exception of [open] *)
  classes_txt : outcome (list string);
  (** [cv.dnn.readNet], [cv.dnn_DetectionModel], [setInputParams] *)
  load_model : outcome unit;
  (** whether selecting the CUDA backend goes through *)
  cuda_available : bool;
  (** the frames of a video file; [None] when [cap.isOpened()] is false *)
  videos : string → option (list read_step)
}.

(** Computations that emit events and may raise. The events emitted
    before an exception are kept. *)
Definition M (A : Type) : Type := (outcome A * list event)%type.

#[global] Instance M_ret : MRet M := λ A a, (Ret a, []).
#[global] Instance M_bind : MBind M := λ A B f m,
  match m with
  | (Ret a, es) => let '(r, es') := f a in (r, es ++ es')
  | (Raise e, es) => (Raise e, es)
  end.

Definition emit (ev : event) : M unit := (Ret tt, [ev]).
Definition raise {A} (e : exn) : M A := (Raise e, []).
Definition lift {A} (o : outcome A) : M A := (o, []).

(** Line 58: [sum(1 for classid in classes if class_name[classid] == "car")] *)
Fixpoint count_cars (class_name : list string) (classes : list nat)
  : outcome Z :=
  match classes with
  | [] => Ret 0%Z
  | classid :: rest =>
      name ← getitem class_name classid;
      n ← count_cars class_name rest;
      Ret ((if String.eqb name "car" then 1 else 0) + n)%Z
  end.

(** Lines 47-66, one iteration per [cap.read()] until it reports the end. *)
Fixpoint stream (class_name : list string) (steps : list read_step)
  (car_counts : list sample) : M (list sample) :=
  match steps with
  | [] => mret car_counts
  | ReadFails e :: _ => raise e
  | ReadFrame f :: rest =>
      classes ← lift (detect f);
      car_count ← lift (count_cars class_name classes);
      let current_time := clock f in
      stream class_name rest (observe car_counts (current_time, car_count))
  end.

(** Lines 25-30: the inner [try] around the choice of backend; either
    branch leaves the function's result alone. *)
Inductive backend : Type := CUDA | DEFAULT.

Definition select_backend (w : world) : backend :=
  if cuda_available w then CUDA else DEFAULT.

(** The body of the outer [try] (lines 9-80). *)
Definition detect_cars_body (w : world) (video_file : string) : M Q :=
  _ ← emit EvReadClasses;
  lines ← lift (classes_txt w);
  let class_name := map strip lines in
  if negb (contains class_name "car") then raise ValueError else
  _ ← emit EvLoadModel;
  _ ← lift (load_model w);
  let _ := select_backend w in
  match videos w video_file with
  | None =>
      _ ← emit (EvCapture video_file false);
      raise FileNotFoundError
  | Some steps =>
      _ ← emit (EvCapture video_file true);
      car_counts ← stream class_name steps [];
      let car_count_values := map snd car_counts in
      mean ← lift (mean_peak_value car_count_values);
      _ ← emit (EvRelease video_file);
      mret mean
  end.

(** [detect_cars]: the body under [except Exception as e], which prints
    and returns [-1]. *)
Definition detect_cars (w : world) (video_file : string) : M Q :=
  match detect_cars_body w video_file with
  | (Ret mean, es) => (Ret mean, es)
  | (Raise e, es) => (Ret (-1)%Q, es ++ [EvPrint e])
  end.

(** The events of a call up to and including a successful capture. *)
Definition trace_opened (video_file : string) : list event :=
  [EvReadClasses; EvLoadModel; EvCapture video_file true].

(** The object bound to the local [cap] of a call: nothing yet, a capture
    that is not open (it could not be opened, or it was released), or an
    open capture, which holds the video file. *)
Inductive cap_state : Type := CapUnbound | CapClosed | CapOpen.

(** What one event of a call on [video_file] does to its local [cap]. *)
Definition cap_step (video_file : string) (c : cap_state) (ev : event)
  : cap_state :=
  match ev with
  | EvCapture v opened =>
      if String.eqb v video_file
      then (if opened then CapOpen else CapClosed)
      else c
  | EvRelease v => if String.eqb v video_file then CapClosed else c
  | _ => c
  end.

(** The local [cap] when the last statement of the call has run, that is
    after [return mean_peak_value] or [return -1] has been evaluated and
    before the frame of the call is given up. *)
Definition cap_at_exit (video_file : string) (es : list event) : cap_state :=
  fold_left (cap_step video_file) es CapUnbound.

(** Giving up the frame of the call. [cap] is a local that is neither
    returned nor stored anywhere, and the exception bound by
    [except Exception as e] is unbound when the clause is left, so the
    frame holds the last reference to the capture: the interpreter
    finalises it before control is back in the caller, and the finaliser
    of [cv2.VideoCapture] releases a capture that is still open. *)
Definition finalize (c : cap_state) : cap_state :=
  match c with
  | CapOpen => CapClosed
  | CapClosed => CapClosed
  | CapUnbound => CapUnbound
  end.

(** The capture of the call once the caller has the value. *)
Definition cap_after_return (video_file : string) (es : list event)
  : cap_state :=
  finalize (cap_at_exit video_file es).

Definition is_capture (ev : event) : bool :=
  match ev with
  | EvCapture _ _ => true
  | _ => false
  end.

(** A [read_step] that raises: the read itself or the detection on the
    frame. *)
Inductive faulty : read_step → Prop :=
| faulty_read e : faulty (ReadFails e)
| faulty_detect f e : detect f = Raise e → faulty (ReadFrame f).

(** A frame that is decoded and whose detections all carry a class id of
    the vocabulary. *)
Definition clean_step (class_name : list string) (st : read_step) : Prop :=
  ∃ f classes, st = ReadFrame f ∧ detect f = Ret classes ∧
    Forall (λ c, (c < length class_name)%nat) classes.

(** A clean frame none of whose detections is a car. *)
Definition carless_step (class_name : list string) (st : read_step) : Prop :=
  ∃ f classes, st = ReadFrame f ∧ detect f = Ret classes ∧
    Forall (λ c, ∃ name, class_name !! c = Some name ∧ name ≠ "car"%string)
      classes.

(** A video that opens and whose frames are all clean. *)
Definition valid_video (w : world) (class_name : list string)
  (video_file : string) : Prop :=
  ∃ steps, videos w video_file = Some steps ∧
    Forall (clean_step class_name) steps.

(** A video that cannot be opened, or that opens and has a faulty step. *)
Definition invalid_video (w : world) (video_file : string) : Prop :=
  videos w video_file = None ∨
  ∃ steps, videos w video_file = Some steps ∧ Exists faulty steps.

(** A video that opens and in which no frame shows a car. *)
Definition carless_video (w : world) (class_name : list string)
  (video_file : string) : Prop :=
  ∃ steps, videos w video_file = Some steps ∧
    Forall (carless_step class_name) steps.

(** The configuration loads and its vocabulary has the class "car". *)
Definition config_ok (w : world) (class_name : list string) : Prop :=
  ∃ lines, classes_txt w = Ret lines ∧ class_name = map strip lines ∧
    In "car"%string class_name ∧ load_model w = Ret tt.

(** The class id denotes "car" in the vocabulary. *)
Definition is_car (class_name : list string) (classid : nat) : bool :=
  match class_name !! classid with
  | Some name => String.eqb name "car"
  | None => false
  end.

(** [step] is a frame that is decoded and counted, and [s] is the sample
    that the loop appends for it. *)
Definition observed (class_name : list string) (step : read_step) (s : sample)
  : Prop :=
  ∃ f classes, step = ReadFrame f ∧ detect f = Ret classes ∧
    count_cars class_name classes = Ret (snd s) ∧ fst s = clock f.


(** Two list positions are at least two apart. *)
Definition two_apart : relation nat := λ p q, (p + 2 ≤ q)%nat.

End Yolov4.

(** ** app.py *)
Module App.

Definition UPLOAD_FOLDER : string := "uploads".
Definition ALLOWED_EXTENSIONS : gset string := {[ "mp4"; "avi"; "mov" ]}%string.
Definition directions : list string := ["north"; "south"; "east"; "west"]%string.

(** [allowed_file]: ["." in filename and
    filename.rsplit(".", 1)[1].lower() in ALLOWED_EXTENSIONS] *)
Definition allowed_file (filename : string) : bool :=
  has_dot filename &&
  match rsplit_dot_1 filename with
  | Ret ext => bool_decide (lower ext ∈ ALLOWED_EXTENSIONS)
  | Raise _ => false
  end.

(** [os.path.join(a, b)] for a relative [b]. *)
Definition path_join (a b : string) : string := a +:+ "/" +:+ b.

(** [werkzeug.utils.secure_filename] is only applied to the four names
    north.mp4, south.mp4, east.mp4 and west.mp4, which it returns as they
    are. *)
Definition secure_filename (name : string) : string := name.

(** The value of the "status" key of an activity. *)
Inductive activity_status : Type := pending | approved | rejected.

#[global] Instance activity_status_eq_dec : EqDecision activity_status.
Proof. solve_decision. Defined.

(** An uploaded file, as far as the handler looks at it. *)
Record file_storage : Type := { filename : string }.

(** [bool(video)] *)
Definition truthy (video : file_storage) : bool :=
  negb (String.eqb (filename video) "").

(** The parts of a POST /upload request that are read. [None] means that
    the key is absent. *)
Record upload_request : Type := {
  files_videos : option (list file_storage);
  form_userId : option string
}.

(** An entry of [recent_activities]. *)
Record log_entry : Type := {
  log_id : string;
  action : string;
  log_timestamp : string
}.

(** The JSON body of a response and its status code. *)
Inductive body : Type :=
| BError (msg : string)
| BActivityId (activity_id : string)
| BSuccess.

Definition response : Type := (body * nat)%type.

(** The answer of approve and reject when their loop finds nothing. *)
Definition not_found : outcome response :=
  Ret (BError "Activity not found or already processed", 404%nat).

(** An answer with status 400. *)
Definition bad_request (r : outcome response) : Prop :=
  ∃ msg, r = Ret (BError msg, 400%nat).

Section Handlers.

(** The timing plan that [optimize_traffic] returns; its shape is not
    looked at. *)
Context {TimingPlan : Type}.

(** An element of [activities]. *)
Record activity : Type := {
  id : string;
  userId : string;
  timestamp : string;
  videos : list string;
  status : activity_status;
  result : option TimingPlan;
  trafficCounts : option (gmap string Q)
}.

(** The module-level stores, the upload directory (folder path to the
    names of the files in it) and the events of the pipeline runs. *)
Record store : Type := {
  activities : list activity;
  recent_activities : list log_entry;
  users : gset string;
  folders : gmap string (gset string);
  events : list Yolov4.event
}.

(** What a request takes from outside the stores: the values of the
    successive [uuid.uuid4()] and [datetime.utcnow().isoformat()] calls,
    the imported [optimize_traffic], and the world of [detect_cars]. *)
Record env : Type := {
  uuid4 : nat → string;
  utcnow : nat → string;
  optimize_traffic : list Q → outcome TimingPlan;
  cv : Yolov4.world
}.

(** Handlers read and write the stores and may raise. *)
Definition H (A : Type) : Type := store → outcome A * store.

#[global] Instance H_ret : MRet H := λ A a st, (Ret a, st).
#[global] Instance H_bind : MBind H := λ A B f m st,
  match m st with
  | (Ret a, st') => f a st'
  | (Raise e, st') => (Raise e, st')
  end.

Definition liftH {A} (o : outcome A) : H A := λ st, (o, st).

Definition set_activities (f : list activity → list activity) : H unit :=
  λ st, (Ret tt,
         {| activities := f (activities st);
            recent_activities := recent_activities st;
            users := users st;
            folders := folders st;
            events := events st |}).

Definition set_recent_activities (f : list log_entry → list log_entry)
  : H unit :=
  λ st, (Ret tt,
         {| activities := activities st;
            recent_activities := f (recent_activities st);
            users := users st;
            folders := folders st;
            events := events st |}).

Definition set_users (f : gset string → gset string) : H unit :=
  λ st, (Ret tt,
         {| activities := activities st;
            recent_activities := recent_activities st;
            users := f (users st);
            folders := folders st;
            events := events st |}).

Definition set_folders (f : gmap string (gset string) → gmap string (gset string))
  : H unit :=
  λ st, (Ret tt,
         {| activities := activities st;
            recent_activities := recent_activities st;
            users := users st;
            folders := f (folders st);
            events := events st |}).

Definition add_events (st : store) (es : list Yolov4.event) : store :=
  {| activities := activities st;
     recent_activities := recent_activities st;
     users := users st;
     folders := folders st;
     events := events st ++ es |}.

(** Running a pipeline computation inside a handler: its events are
    appended to the store's. *)
Definition run_M {A} (m : Yolov4.M A) : H A :=
  λ st, (fst m, add_events st (snd m)).

(** [os.makedirs(folder)] *)
Definition makedirs (folder : string) : H unit :=
  λ st, match folders st !! folder with
        | Some _ => (Raise FileExistsError, st)
        | None => set_folders (insert folder ∅) st
        end.

(** [video.save(os.path.join(folder, name))] *)
Definition save (folder name : string) : H unit :=
  set_folders (alter (λ files, files ∪ {[ name ]}) folder).

(** [shutil.rmtree(folder)] *)
Definition rmtree (folder : string) : H unit :=
  λ st, match folders st !! folder with
        | Some _ => set_folders (delete folder) st
        | None => (Raise FileNotFoundError, st)
        end.

(** Lines 53-61: the loop over [enumerate(videos)]. [inl] is the early
    return of the [else] branch, [inr] the list built when the loop runs
    to its end. *)
Fixpoint save_videos (activity_id activity_folder : string) (i : nat)
  (videos : list file_storage) (video_urls : list string)
  : H (response + list string) :=
  match videos with
  | [] => mret (inr video_urls)
  | video :: rest =>
      if truthy video && allowed_file (filename video) then
        direction ← liftH (getitem directions i);
        let filename := secure_filename (direction +:+ ".mp4") in
        _ ← save activity_folder filename;
        save_videos activity_id activity_folder (i + 1) rest
          (video_urls ++
             ["http://localhost:5000/videos/" +:+ activity_id +:+ "/" +:+ filename])
      else
        _ ← rmtree activity_folder;
        mret (inl (BError "Invalid video file", 400%nat))
  end.

(** [upload_files] (lines 36-85) *)
Definition upload_files (e : env) (rq : upload_request) : H response :=
  match files_videos rq, form_userId rq with
  | Some videos, Some user_id =>
      if negb (length videos =? 4)%nat
      then mret (BError "Exactly 4 videos are required", 400%nat)
      else
        let activity_id := uuid4 e 0 in
        let activity_folder := path_join UPLOAD_FOLDER activity_id in
        _ ← makedirs activity_folder;
        r ← save_videos activity_id activity_folder 0 videos [];
        match r with
        | inl resp => mret resp
        | inr video_urls =>
            _ ← set_users (λ us, us ∪ {[ user_id ]});
            let activity :=
              {| id := activity_id;
                 userId := user_id;
                 timestamp := utcnow e 0;
                 videos := video_urls;
                 status := pending;
                 result := None;
                 trafficCounts := None |} in
            _ ← set_activities (λ l, l ++ [activity]);
            _ ← set_recent_activities (λ l, l ++
                  [{| log_id := uuid4 e 1;
                      action := "User '" +:+ user_id +:+ "' uploaded videos";
                      log_timestamp := utcnow e 1 |}]);
            mret (BActivityId activity_id, 201%nat)
        end
  | _, _ => mret (BError "Missing videos or userId", 400%nat)
  end.

(** The test of the two loops (lines 97 and 129). *)
Definition pending_with_id (activity_id : string) (a : activity) : Prop :=
  id a = activity_id ∧ status a = pending.

#[global] Instance pending_with_id_dec activity_id a :
  Decision (pending_with_id activity_id a).
Proof. unfold pending_with_id. apply _. Defined.

(** [os.path.join(app.config["UPLOAD_FOLDER"], activity_id,
    f"{direction}.mp4")] *)
Definition video_path (activity_id direction : string) : string :=
  path_join (path_join UPLOAD_FOLDER activity_id) (direction +:+ ".mp4").

(** Lines 98-101 *)
Definition video_paths (activity_id : string) : list string :=
  map (video_path activity_id) directions.

(** Line 102: [[detect_cars(video) for video in video_paths]] *)
Fixpoint detect_all (w : Yolov4.world) (paths : list string) : H (list Q) :=
  match paths with
  | [] => mret []
  | video :: rest =>
      n ← run_M (Yolov4.detect_cars w video);
      ns ← detect_all w rest;
      mret (n :: ns)
  end.

(** The dictionary literal of lines 108-113. *)
Definition flow_report (north south east west : Q) : gmap string Q :=
  <["north" := north]> (<["south" := south]> (<["east" := east]>
    (<["west" := west]> ∅))).

(** Lines 108-113: the dictionary built from [num_cars_list[0..3]]. *)
Definition traffic_counts (num_cars_list : list Q) : outcome (gmap string Q) :=
  north ← getitem num_cars_list 0;
  south ← getitem num_cars_list 1;
  east ← getitem num_cars_list 2;
  west ← getitem num_cars_list 3;
  Ret (flow_report north south east west).

(** The entry appended to [recent_activities] by approve and reject. *)
Definition admin_log (e : env) (verb activity_id user_id : string) : log_entry :=
  {| log_id := uuid4 e 0;
     action := "Admin " +:+ verb +:+ " activity '" +:+ activity_id +:+
               "' for user '" +:+ user_id +:+ "'";
     log_timestamp := utcnow e 0 |}.

Definition set_status (s : activity_status) (a : activity) : activity :=
  {| id := id a; userId := userId a; timestamp := timestamp a;
     videos := videos a; status := s; result := result a;
     trafficCounts := trafficCounts a |}.

Definition set_result (r : TimingPlan) (a : activity) : activity :=
  {| id := id a; userId := userId a; timestamp := timestamp a;
     videos := videos a; status := status a; result := Some r;
     trafficCounts := trafficCounts a |}.

Definition set_trafficCounts (c : gmap string Q) (a : activity) : activity :=
  {| id := id a; userId := userId a; timestamp := timestamp a;
     videos := videos a; status := status a; result := result a;
     trafficCounts := Some c |}.

(** The activity after the three assignments of lines 106-113. *)
Definition approved_with (plan : TimingPlan) (counts : gmap string Q)
  (a : activity) : activity :=
  set_trafficCounts counts (set_result plan (set_status approved a)).

(** [approve_activity] (lines 94-123). The loop returns at the first
    activity that passes the test, found by [list_find]; the activity is a
    dictionary held in the list, so the assignments update the list in
    place. *)
Definition approve_activity (e : env) (activity_id : string) : H response :=
  λ st,
    match list_find (pending_with_id activity_id) (activities st) with
    | None => (Ret (BError "Activity not found or already processed", 404%nat), st)
    | Some (i, activity) =>
        (num_cars_list ← detect_all (cv e) (video_paths activity_id);
         plan ← liftH (optimize_traffic e num_cars_list);
         _ ← set_activities (alter (set_status approved) i);
         _ ← set_activities (alter (set_result plan) i);
         counts ← liftH (traffic_counts num_cars_list);
         _ ← set_activities (alter (set_trafficCounts counts) i);
         _ ← set_recent_activities (λ l, l ++
               [admin_log e "approved" activity_id (userId activity)]);
         mret (BSuccess, 200%nat)) st
    end.

(** [reject_activity] (lines 126-140) *)
Definition reject_activity (e : env) (activity_id : string) : H response :=
  λ st,
    match list_find (pending_with_id activity_id) (activities st) with
    | None => (Ret (BError "Activity not found or already processed", 404%nat), st)
    | Some (i, activity) =>
        (_ ← set_activities (alter (set_status rejected) i);
         _ ← set_recent_activities (λ l, l ++
               [admin_log e "rejected" activity_id (userId activity)]);
         mret (BSuccess, 200%nat)) st
    end.

(** The URL appended to [video_urls] for a direction (line 58). *)
Definition video_url (activity_id direction : string) : string :=
  "http://localhost:5000/videos/" +:+ activity_id +:+ "/" +:+
  secure_filename (direction +:+ ".mp4").

(** The dictionary of lines 67-75 when the loop has gone through the four
    directions. *)
Definition uploaded_activity (e : env) (user_id : string) : activity :=
  {| id := uuid4 e 0;
     userId := user_id;
     timestamp := utcnow e 0;
     videos := map (video_url (uuid4 e 0)) directions;
     status := pending;
     result := None;
     trafficCounts := None |}.

(** The entry of lines 79-83. *)
Definition upload_log (e : env) (user_id : string) : log_entry :=
  {| log_id := uuid4 e 1;
     action := "User '" +:+ user_id +:+ "' uploaded videos";
     log_timestamp := utcnow e 1 |}.

(** The names under which the four files are saved. *)
Definition saved_names : gset string :=
  list_to_set (map (λ direction, secure_filename (direction +:+ ".mp4"))
                 directions).

(** The timestamp of [a] is not below that of [b] as a string. *)
Definition not_older : relation log_entry :=
  λ a b, String.leb (log_timestamp b) (log_timestamp a) = true.

(** No two activities have the same id. *)
Definition unique_ids (l : list activity) : Prop := NoDup (map id l).

(** *** The read-only routes *)
Section Views.

(** Whether the value stored under "result" is true in a condition; the
    shape of a timing plan is not known, so its truth value is taken from
    outside. [None] is false. *)
Variable plan_truthy : TimingPlan → bool.

Definition truthy_result (r : option TimingPlan) : bool :=
  match r with
  | Some plan => plan_truthy plan
  | None => false
  end.

(** [get_activities] (lines 88-91) *)
Definition get_activities (st : store) : list activity * nat :=
  (filter (λ a, status a = pending) (activities st), 200%nat).

(** The JSON object of [get_results]: the status and, when the key is
    set, the result. *)
Inductive results_body : Type :=
| ResultsOf (s : activity_status) (shown : option TimingPlan)
| ResultsError (msg : string).

(** [get_results] (lines 143-151): the loop returns at the first activity
    with the id. *)
Definition get_results (activity_id : string) (st : store)
  : results_body * nat :=
  match list_find (λ a, id a = activity_id) (activities st) with
  | Some (_, activity) =>
      (ResultsOf (status activity)
         (if bool_decide (status activity = approved)
             && truthy_result (result activity)
          then result activity else None),
       200%nat)
  | None => (ResultsError "Activity not found", 404%nat)
  end.

(** The JSON object of [get_dashboard_stats]. *)
Record dashboard_stats : Type := {
  totalUsers : nat;
  activeSessions : nat;
  pendingTasks : nat;
  systemStatus : string
}.

(** [get_dashboard_stats] (lines 162-169) *)
Definition get_dashboard_stats (st : store) : dashboard_stats * nat :=
  ({| totalUsers := size (users st);
      activeSessions := 0;
      pendingTasks := length (filter (λ a, status a = pending) (activities st));
      systemStatus := "Operational" |}, 200%nat).

(** [sorted(l, key=lambda x: x["timestamp"], reverse=True)]: a stable sort
    into descending order of the timestamps, which are compared as
    strings. The entries are inserted from the last to the first, each one
    in front of the first entry that is not newer than it, so entries with
    equal timestamps keep their order. *)
Fixpoint insert_newest_first (x : log_entry) (l : list log_entry)
  : list log_entry :=
  match l with
  | [] => [x]
  | y :: l' =>
      if String.leb (log_timestamp y) (log_timestamp x) then x :: l
      else y :: insert_newest_first x l'
  end.

Definition sorted_newest_first (l : list log_entry) : list log_entry :=
  foldr insert_newest_first [] l.

(** [get_recent_activity] (lines 172-175) *)
Definition get_recent_activity (st : store) : list log_entry * nat :=
  (take 10 (sorted_newest_first (recent_activities st)), 200%nat).

(** One element of "reports". *)
Record report : Type := {
  report_id : string;
  report_userId : string;
  report_timestamp : string;
  report_trafficCounts : option (gmap string Q);
  signalTimings : option TimingPlan
}.

(** The dictionary of lines 181-192. Every activity is created by
    [upload_files] with the key "trafficCounts", so [activity.get] never
    falls back on its default. *)
Definition report_of (a : activity) : report :=
  {| report_id := id a;
     report_userId := userId a;
     report_timestamp := timestamp a;
     report_trafficCounts := trafficCounts a;
     signalTimings := result a |}.

(** The condition of line 194. *)
Definition reportable (a : activity) : bool :=
  bool_decide (status a = approved) && truthy_result (result a).

(** The JSON object of [get_reports]. *)
Record reports_body : Type := {
  totalProcessed : nat;
  reports : list report
}.

(** [get_reports] (lines 178-199) *)
Definition get_reports (st : store) : reports_body * nat :=
  let approved_activities :=
    map report_of (List.filter reportable (activities st)) in
  ({| totalProcessed := length approved_activities;
      reports := approved_activities |}, 200%nat).

End Views.

End Handlers.

Arguments activity : clear implicits.
Arguments store : clear implicits.
Arguments env : clear implicits.
Arguments report : clear implicits.
Arguments reports_body : clear implicits.
Arguments results_body : clear implicits.

End App.

(** ** Concrete worlds, requests and stores *)
Module Samples.

Import Yolov4 App.

Definition vocabulary : list string := ["person "; " bicycle"; "car "]%string.

Definition seen (classes : list nat) (t : Q) : read_step :=
  ReadFrame {| detect := Ret classes; clock := t |}.


(** Three videos that decode, and no west video. *)
Definition three_of_four (video_file : string) : option (list read_step) :=
  if String.eqb video_file "uploads/a1/north.mp4"
  then Some [seen [2; 0]%nat 1; seen [2; 2; 2]%nat 2; seen [2]%nat 3]
  else if String.eqb video_file "uploads/a1/south.mp4"
  then Some [seen [0]%nat 1; seen []%nat 2]
  else if String.eqb video_file "uploads/a1/east.mp4"
  then Some [seen [2]%nat 1; seen [2; 2]%nat 2; seen [2; 2]%nat 3; seen [1]%nat 4]
  else None.

(** Four videos that decode and show no car. *)
Definition no_traffic (video_file : string) : option (list read_step) :=
  if String.eqb video_file "uploads/a1/north.mp4"
  then Some [seen [0]%nat 1; seen [1; 0]%nat 2]
  else if String.eqb video_file "uploads/a1/south.mp4"
  then Some [seen []%nat 1]
  else if String.eqb video_file "uploads/a1/east.mp4"
  then Some []
  else if String.eqb video_file "uploads/a1/west.mp4"
  then Some [seen [1]%nat 1; seen [1]%nat 2; seen [0]%nat 40]
  else None.


Definition world_of (lines : list string)
  (vs : string → option (list read_step)) : world :=
  {| classes_txt := Ret lines;
     load_model := Ret tt;
     cuda_available := false;
     Yolov4.videos := vs |}.

Definition env_of (w : world) : env (list Q) :=
  {| uuid4 := λ n, if (n =? 0)%nat then "u0" else "u1";
     utcnow := λ _, "2024-05-01T10:00:00";
     optimize_traffic := λ num_cars_list, Ret num_cars_list;
     cv := w |}%string.

Definition pending_a1 : activity (list Q) :=
  {| id := "a1"; userId := "alice"; timestamp := "2024-05-01T09:00:00";
     App.videos := []; status := pending; result := None;
     trafficCounts := None |}%string.

Definition done_a0 : activity (list Q) :=
  {| id := "a0"; userId := "bob"; timestamp := "2024-04-30T09:00:00";
     App.videos := []; status := approved; result := Some [];
     trafficCounts := None |}%string.

Definition store_of (l : list (activity (list Q))) : store (list Q) :=
  {| activities := l;
     recent_activities := [];
     users := ∅;
     folders := ∅;
     events := [] |}.

Definition bad_upload : upload_request :=
  {| files_videos := Some [ {| filename := "n.mp4" |}; {| filename := "s.exe" |};
                            {| filename := "e.MOV" |}; {| filename := "w.avi" |} ];
     form_userId := Some "alice" |}%string.

Definition good_upload : upload_request :=
  {| files_videos := Some [ {| filename := "n.mp4" |}; {| filename := "s.AVI" |};
                            {| filename := "e.mov" |}; {| filename := "w.x.Mp4" |} ];
     form_userId := Some "carol" |}%string.

(** An environment whose optimizer raises. *)
Definition failing_env (w : world) : env (list Q) :=
  {| uuid4 := λ n, if (n =? 0)%nat then "u0" else "u1";
     utcnow := λ _, "2024-05-01T10:00:00";
     optimize_traffic := λ _, Raise OptimizerError;
     cv := w |}%string.


(** The truth value of a Python list. *)
Definition nonempty (plan : list Q) : bool :=
  match plan with
  | [] => false
  | _ :: _ => true
  end.

Definition sample_env : env (list Q) :=
  env_of (world_of vocabulary three_of_four).

Definition sample_store : store (list Q) := store_of [done_a0; pending_a1].

(** The samples that the loop appends for the north video of
    [three_of_four]. *)
Definition north_samples : list sample := [(1%Q, 1%Z); (2%Q, 3%Z); (3%Q, 1%Z)].

End Samples.

Import Yolov4 App.

(** * Properties *)

(** ** The trailing window *)
Section Window.

Implicit Types (obs car_counts : list sample) (s : sample) (now : Q).

#[local] Instance earlier_trans : Transitive earlier.
Proof. intros a b c. unfold earlier. apply Qle_trans. Qed.

Lemma Qltb_lt (a b : Q) : Qltb a b = true ↔ (a < b)%Q.
Proof.
  unfold Qltb. rewrite negb_true_iff, <- not_true_iff_false, Qle_bool_iff.
  split; [apply Qnot_le_lt | apply Qlt_not_le].
Qed.

Lemma recent_le now s : recent now s = true ↔ (now - 30 <= fst s)%Q.
Proof.
  unfold recent. rewrite negb_true_iff, <- not_true_iff_false, Qltb_lt.
  split; [apply Qnot_lt_le | apply Qle_not_lt].
Qed.

Lemma recent_self s : recent (fst s) s = true.
Proof. apply recent_le. lra. Qed.

Lemma recent_mono now now' s :
  (now' <= now)%Q → recent now s = true → recent now' s = true.
Proof. rewrite !recent_le. lra. Qed.

(** Eviction only drops a prefix. *)
Lemma evict_suffix now car_counts :
  evict now car_counts `suffix_of` car_counts.
Proof.
  induction car_counts as [|s rest IH]; simpl; [done|].
  destruct (Qltb (fst s) (now - 30)); [|done].
  by apply suffix_cons_r.
Qed.

Lemma observe_suffix car_counts s :
  observe car_counts s `suffix_of` (car_counts ++ [s]).
Proof. apply evict_suffix. Qed.

Lemma fold_observe_suffix obs car_counts history :
  car_counts `suffix_of` history →
  fold_left observe obs car_counts `suffix_of` (history ++ obs).
Proof.
  revert car_counts history.
  induction obs as [|s obs IH]; intros car_counts history Hsuf; simpl.
  - by rewrite app_nil_r.
  - replace (history ++ s :: obs) with ((history ++ [s]) ++ obs)
      by (by rewrite <- app_assoc).
    apply IH. etrans; [apply observe_suffix|].
    by apply suffix_app.
Qed.

(** Whatever the timestamps are, the window is the observed sequence with
    some of its oldest samples removed. *)
Lemma accumulate_suffix obs : accumulate obs `suffix_of` obs.
Proof. apply (fold_observe_suffix obs [] []). done. Qed.

Lemma filter_all {A} (f : A → bool) (l : list A) :
  Forall (λ a, f a = true) l → List.filter f l = l.
Proof.
  induction 1 as [|a l Ha _ IH]; simpl; [done|]. by rewrite Ha, IH.
Qed.

Lemma filter_filter_weaker {A} (f g : A → bool) (l : list A) :
  (∀ a, f a = true → g a = true) →
  List.filter f (List.filter g l) = List.filter f l.
Proof.
  intros Hfg. induction l as [|a l IH]; simpl; [done|].
  destruct (g a) eqn:Hg; simpl.
  - by rewrite IH.
  - destruct (f a) eqn:Hf; [|done]. apply Hfg in Hf. congruence.
Qed.

Lemma filter_strongly_sorted {A} (R : relation A) (f : A → bool) (l : list A) :
  StronglySorted R l → StronglySorted R (List.filter f l).
Proof.
  induction 1 as [|a l Hl IH Ha]; simpl; [constructor|].
  destruct (f a); [|done]. constructor; [done|].
  apply Forall_forall. intros b Hb.
  apply list_elem_of_In, filter_In in Hb as [Hb _].
  rewrite Forall_forall in Ha. by apply Ha, list_elem_of_In.
Qed.

(** On a deque whose timestamps are in order the eviction loop is a
    filter. *)
Lemma evict_sorted now car_counts :
  StronglySorted earlier car_counts →
  evict now car_counts = List.filter (recent now) car_counts.
Proof.
  induction 1 as [|s rest Hrest IH Hs]; simpl; [done|].
  unfold recent at 1. destruct (Qltb (fst s) (now - 30)) eqn:Hlt; simpl.
  - done.
  - f_equal. symmetry. apply filter_all.
    eapply Forall_impl; [exact Hs|]. intros b Hb. simpl in Hb.
    apply recent_le. unfold earlier in Hb.
    assert (recent now s = true) as Hr by (unfold recent; by rewrite Hlt).
    apply recent_le in Hr. lra.
Qed.

Lemma accumulate_snoc obs s :
  accumulate (obs ++ [s]) = observe (accumulate obs) s.
Proof. unfold accumulate. by rewrite fold_left_app. Qed.

Lemma accumulate_sorted obs s :
  StronglySorted earlier (obs ++ [s]) →
  accumulate (obs ++ [s]) = List.filter (recent (fst s)) (obs ++ [s]).
Proof.
  revert s. induction obs as [|s' obs IH] using rev_ind; intros s Hs.
  - simpl. unfold accumulate, observe. simpl.
    pose proof (recent_self s) as Hr. unfold recent in Hr.
    apply negb_true_iff in Hr. rewrite Hr. simpl.
    unfold recent. by rewrite Hr.
  - rewrite accumulate_snoc.
    apply StronglySorted_app in Hs as (Hlast & Hprev & _).
    rewrite (IH s' Hprev). unfold observe.
    assert (earlier s' s) as Hle.
    { apply Hlast; [apply elem_of_app; right|]; apply list_elem_of_singleton; done. }
    rewrite evict_sorted.
    + rewrite (List.filter_app _ _ [s]), (List.filter_app _ (obs ++ [s']) [s]).
      f_equal. apply filter_filter_weaker.
      intros a. apply recent_mono. exact Hle.
    + apply StronglySorted_app. split_and!.
      * intros x1 x2 Hx1 Hx2. apply Hlast; [|done].
        apply list_elem_of_In, filter_In in Hx1 as [Hx1 _].
        by apply list_elem_of_In.
      * by apply filter_strongly_sorted.
      * repeat constructor.
Qed.

(** C1, as amended. When the timestamps fed to the aggregator never
    decrease, the deque after an observation [s] holds exactly the observed
    samples whose timestamp is at least [fst s - 30], in the order in which
    they were observed; it is the observed sequence without some of its
    oldest samples, and every retained timestamp lies between [fst s - 30]
    and [fst s]. *)
Theorem window_holds_recent_samples obs s :
  clock_monotone (obs ++ [s]) →
  accumulate (obs ++ [s]) = List.filter (recent (fst s)) (obs ++ [s]) ∧
  accumulate (obs ++ [s]) `suffix_of` (obs ++ [s]) ∧
  ∀ x, x ∈ accumulate (obs ++ [s]) → (fst s - 30 <= fst x <= fst s)%Q.
Proof.
  intros Hmono. apply (Sorted_StronglySorted _ _) in Hmono.
  pose proof (accumulate_sorted obs s Hmono) as Heq.
  split_and!; [done|apply accumulate_suffix|].
  intros x Hx. rewrite Heq in Hx.
  apply list_elem_of_In, filter_In in Hx as [Hin Hrec].
  apply recent_le in Hrec. split; [done|].
  apply StronglySorted_app in Hmono as (Hlast & _ & _).
  apply in_app_or in Hin as [Hin|Hin].
  - apply (Hlast x s); [by apply list_elem_of_In|by apply list_elem_of_singleton].
  - destruct Hin as [->|[]]. lra.
Qed.

Lemma window_holds_recent_samples_witness :
  accumulate ([(0%Q, 1%Z); (20%Q, 2%Z); (31%Q, 3%Z)] ++ [(55%Q, 4%Z)])
    = [(31%Q, 3%Z); (55%Q, 4%Z)].
Proof.
  refine (proj1 (window_holds_recent_samples
                   [(0%Q, 1%Z); (20%Q, 2%Z); (31%Q, 3%Z)] (55%Q, 4%Z) _)).
  unfold clock_monotone.
  repeat constructor; unfold earlier; simpl; discriminate.
Defined.

(** C1, as stated, fails when the clock steps back: after the readings
    100, 50, 100 the sample taken at 50 is still in the deque, more than
    30 seconds older than the newest one, because only the head of the
    deque is ever tested. *)
Lemma stale_sample_survives_clock_step_back :
  let obs : list sample := [(100%Q, 1%Z); (50%Q, 2%Z); (100%Q, 3%Z)] in
  accumulate obs = obs ∧
  In (50%Q, 2%Z) (accumulate obs) ∧
  recent 100%Q (50%Q, 2%Z) = false ∧
  accumulate obs ≠ List.filter (recent 100%Q) obs.
Proof. simpl. split_and!; [reflexivity|right; left; reflexivity|reflexivity|discriminate]. Qed.

End Window.

(** ** The peak estimator *)
Section Peaks.

Implicit Types (x : list Z) (i l r p k : nat).

Local Notation "x .[ k ]" := (nth k x 0%Z) (at level 1, format "x .[ k ]").

(** The inner loop stops at the first sample after [i] that differs from
    [x[i]], or at the last index. *)
Lemma look_ahead_spec fuel x i a i_max :
  (a ≤ i_max)%nat → (i_max - a ≤ fuel)%nat →
  (∀ k, (i ≤ k < a)%nat → x.[k] = x.[i]) →
  let r := look_ahead fuel x i a i_max in
  (a ≤ r ≤ i_max)%nat ∧
  (∀ k, (i ≤ k < r)%nat → x.[k] = x.[i]) ∧
  (r = i_max ∨ x.[r] ≠ x.[i]).
Proof.
  revert a. induction fuel as [|fuel IH]; intros a Ha Hfuel Heq; simpl.
  - split_and!; [lia|lia|done|left; lia].
  - destruct (a <? i_max)%nat eqn:Hlt; simpl.
    + apply Nat.ltb_lt in Hlt.
      destruct (x.[a] =? x.[i])%Z eqn:Hv.
      * apply Z.eqb_eq in Hv.
        destruct (IH (a + 1)%nat) as (Hr & Hk & Hend); [lia|lia| |].
        { intros k Hk. destruct (decide (k = a)) as [->|]; [done|].
          apply Heq. lia. }
        split_and!; [lia|lia|done|done].
      * apply Z.eqb_neq in Hv. split_and!; [lia|lia|done|by right].
    + apply Nat.ltb_ge in Hlt. split_and!; [lia|lia|done|left; lia].
Qed.

(** The outer loop started at [i] finds the middle of every plateau peak
    that begins at [i] or later, and nothing else. *)
Lemma local_maxima_loop_spec fuel x i i_max p :
  i_max = (length x - 1)%nat → (1 ≤ i)%nat → (i_max - i ≤ fuel)%nat →
  In p (local_maxima_loop fuel x i i_max) ↔
  ∃ l r, plateau_peak x l r ∧ (i ≤ l)%nat ∧ p = ((l + r) / 2)%nat.
Proof.
  intros Himax. revert i.
  induction fuel as [|fuel IH]; intros i Hi Hfuel; simpl.
  { split; [done|]. intros (l & r & (H1 & H2 & H3 & _) & Hl & _). lia. }
  destruct (i <? i_max)%nat eqn:Hlt; cycle 1.
  { apply Nat.ltb_ge in Hlt. split; [done|].
    intros (l & r & (H1 & H2 & H3 & _) & Hl & _). lia. }
  apply Nat.ltb_lt in Hlt.
  destruct (x.[i - 1] <? x.[i])%Z eqn:Hup; cycle 1.
  { apply Z.ltb_ge in Hup. rewrite IH by lia.
    split; intros (l & r & Hpk & Hl & Hp); exists l, r; split_and!; try done; try lia.
    destruct (decide (l = i)) as [->|]; [|lia].
    destruct Hpk as (_ & _ & _ & Hpk & _). lia. }
  apply Z.ltb_lt in Hup.
  destruct (look_ahead_spec i_max x i (i + 1) i_max) as (Hr & Hk & Hend);
    [lia|lia|intros k ?; by replace k with i by lia|].
  remember (look_ahead i_max x i (i + 1) i_max) as a eqn:Ea. clear Ea.
  assert (∀ l r, plateau_peak x l r → l = i → (r + 1)%nat = a ∧ (x.[a] < x.[i])%Z)
    as Hhere.
  { intros l r (H1 & H2 & H3 & H4 & H5 & H6) ->.
    destruct (decide (r + 1 < a)%nat) as [Hlt1|Hge1].
    { specialize (Hk (r + 1)%nat). lia. }
    destruct (decide (a < r + 1)%nat) as [Hlt2|Hge2].
    { specialize (H6 a). destruct Hend as [Hend|Hend]; lia. }
    assert (r + 1 = a)%nat as <- by lia. done. }
  destruct (x.[a] <? x.[i])%Z eqn:Hdown.
  - apply Z.ltb_lt in Hdown. simpl. rewrite IH by lia. split.
    + intros [<-|(l & r & Hpk & Hl & Hp)].
      * exists i, (a - 1)%nat. split_and!; [|lia|done].
        unfold plateau_peak. split_and!; try lia.
        -- by replace (a - 1 + 1)%nat with a by lia.
        -- intros k Hk'. apply Hk. lia.
      * exists l, r. split_and!; [done|lia|done].
    + intros (l & r & Hpk & Hl & Hp).
      destruct (decide (l = i)) as [->|Hne].
      * left. destruct (Hhere i r Hpk eq_refl) as [Ha _].
        subst p. replace (a - 1)%nat with r by lia. reflexivity.
      * right. exists l, r. split_and!; [done| |done].
        destruct Hpk as (H1 & H2 & H3 & H4 & H5 & H6).
        destruct (decide (l < a)%nat) as [Hla|]; [|
          destruct (decide (l = a)) as [->|]; [|lia]].
        -- pose proof (Hk l). pose proof (Hk (l - 1)%nat). lia.
        -- pose proof (Hk (a - 1)%nat).
           replace (a - 1 + 1)%nat with a in * by lia. lia.
  - apply Z.ltb_ge in Hdown. rewrite IH by lia.
    split; intros (l & r & Hpk & Hl & Hp); exists l, r; split_and!; try done; try lia.
    destruct (decide (l = i)) as [->|]; [|lia].
    destruct (Hhere i r Hpk eq_refl). lia.
Qed.

Lemma find_peaks_spec x p :
  p ∈ find_peaks x ↔ ∃ l r, plateau_peak x l r ∧ p = ((l + r) / 2)%nat.
Proof.
  unfold find_peaks. rewrite list_elem_of_In.
  rewrite local_maxima_loop_spec by (done || lia).
  split; intros (l & r & Hpk & H); exists l, r.
  - by destruct H.
  - split_and!; [done| |done]. by destruct Hpk.
Qed.

(** A peak sits inside its plateau. *)
Lemma plateau_peak_middle x l r :
  plateau_peak x l r → (l ≤ (l + r) / 2 ≤ r)%nat.
Proof.
  intros (_ & Hlr & _).
  split; [apply Nat.div_le_lower_bound|apply Nat.Div0.div_le_upper_bound]; lia.
Qed.

Lemma find_peaks_interior x p :
  p ∈ find_peaks x →
  (1 ≤ p)%nat ∧ (p + 1 < length x)%nat ∧
  (x.[p - 1] <= x.[p])%Z ∧ (x.[p + 1] <= x.[p])%Z.
Proof.
  intros (l & r & Hpk & ->)%find_peaks_spec.
  pose proof (plateau_peak_middle x l r Hpk) as Hmid.
  destruct Hpk as (H1 & H2 & H3 & H4 & H5 & H6).
  set (m := ((l + r) / 2)%nat) in *.
  pose proof (H6 m). pose proof (H6 (m - 1)%nat). pose proof (H6 (m + 1)%nat).
  split_and!; try lia.
  - destruct (decide (m = l)) as [->|]; lia.
  - destruct (decide (m = r)) as [->|]; lia.
Qed.

Lemma strict_local_max_found x i :
  strict_local_max x i → i ∈ find_peaks x.
Proof.
  intros (H1 & H2 & H3 & H4). apply find_peaks_spec. exists i, i. split.
  - unfold plateau_peak. split_and!; try done.
    intros k Hk. by replace k with i by lia.
  - replace (i + i)%nat with (i * 2)%nat by lia. by rewrite Nat.div_mul.
Qed.

Lemma find_peaks_nil x :
  find_peaks x = [] ↔ ∀ l r, ¬ plateau_peak x l r.
Proof.
  split.
  - intros Hnil l r Hpk.
    assert (((l + r) / 2)%nat ∈ find_peaks x) as Hin
      by (apply find_peaks_spec; eauto).
    rewrite Hnil in Hin. by apply not_elem_of_nil in Hin.
  - intros Hno. destruct (find_peaks x) as [|p ps] eqn:Hps; [done|].
    assert (p ∈ find_peaks x) as Hin by (rewrite Hps; left).
    apply find_peaks_spec in Hin as (l & r & Hpk & _). by destruct (Hno l r).
Qed.

Lemma find_peaks_short x : (length x < 3)%nat → find_peaks x = [].
Proof.
  intros Hlen. apply find_peaks_nil. intros l r (H1 & H2 & H3 & _). lia.
Qed.

Lemma find_peaks_nondecreasing x : nondecreasing x → find_peaks x = [].
Proof.
  intros Hmono. apply find_peaks_nil. intros l r (H1 & H2 & H3 & H4 & H5 & H6).
  specialize (Hmono l (r + 1)%nat). lia.
Qed.

Lemma find_peaks_nonincreasing x : nonincreasing x → find_peaks x = [].
Proof.
  intros Hmono. apply find_peaks_nil. intros l r (H1 & H2 & H3 & H4 & H5 & H6).
  specialize (Hmono (l - 1)%nat l). lia.
Qed.

(** The peaks come out in increasing order, so none is listed twice. *)
Lemma local_maxima_loop_sorted fuel x i i_max :
  i_max = (length x - 1)%nat → (1 ≤ i)%nat → (i_max - i ≤ fuel)%nat →
  StronglySorted lt (local_maxima_loop fuel x i i_max).
Proof.
  intros Himax. revert i.
  induction fuel as [|fuel IH]; intros i Hi Hfuel; cbn [local_maxima_loop];
    [constructor|].
  destruct (i <? i_max)%nat eqn:Hlt; [|constructor].
  apply Nat.ltb_lt in Hlt.
  destruct (x.[i - 1] <? x.[i])%Z; [|apply IH; lia].
  destruct (look_ahead_spec i_max x i (i + 1) i_max) as (Hr & _);
    [lia|lia|intros k ?; by replace k with i by lia|].
  remember (look_ahead i_max x i (i + 1) i_max) as a eqn:Ea. clear Ea.
  destruct (x.[a] <? x.[i])%Z; [|apply IH; lia].
  constructor; [apply IH; lia|].
  apply Forall_forall. intros q Hq.
  apply list_elem_of_In, local_maxima_loop_spec in Hq
    as (l & r & Hpk & Hl & ->); [|done|lia|lia].
  pose proof (plateau_peak_middle x l r Hpk).
  assert ((i + (a - 1)) / 2 ≤ a - 1)%nat
    by (apply Nat.Div0.div_le_upper_bound; lia).
  lia.
Qed.

Lemma find_peaks_sorted x : StronglySorted lt (find_peaks x).
Proof. apply local_maxima_loop_sorted; (done || lia). Qed.

Lemma getitems_in_range {A} (d : A) (xs : list A) (idx : list nat) :
  Forall (λ i, (i < length xs)%nat) idx →
  getitems xs idx = Ret (map (λ i, nth i xs d) idx).
Proof.
  induction 1 as [|i idx Hi _ IH]; simpl; [done|].
  unfold getitem. destruct (xs !! i) as [a|] eqn:Hai.
  - simpl. rewrite IH. simpl.
    by rewrite (nth_lookup_Some _ _ d _ Hai).
  - apply lookup_ge_None in Hai. lia.
Qed.

Lemma mean_peak_value_eq x :
  mean_peak_value x =
    Ret (if (0 <? length (find_peaks x))%nat then np_mean (peak_values x)
         else 0%Q).
Proof.
  unfold mean_peak_value.
  destruct (0 <? length (find_peaks x))%nat; [|done].
  rewrite (getitems_in_range 0%Z); [done|].
  apply Forall_forall. intros p Hp. apply find_peaks_interior in Hp. lia.
Qed.

(** C2, as amended. [find_peaks] treats a flat top as a peak: the peak
    indices are exactly the middles (rounded down) of the runs of equal
    values that are higher than the sample before and the sample after the
    run, listed once each in increasing order. Every index strictly above
    both neighbours is among them, the first and the last index never are,
    and a peak is nowhere below a neighbour. There is no peak, and the
    metric is 0, when the sequence has fewer than 3 samples or never
    decreases or never increases; with at least one peak the metric is the
    arithmetic mean of the values at the peak indices. *)
Theorem peak_estimator_spec x :
  (∀ p, p ∈ find_peaks x ↔
        ∃ l r, plateau_peak x l r ∧ p = ((l + r) / 2)%nat) ∧
  StronglySorted lt (find_peaks x) ∧
  (∀ i, strict_local_max x i → i ∈ find_peaks x) ∧
  (∀ p, p ∈ find_peaks x →
        (1 ≤ p)%nat ∧ (p + 1 < length x)%nat ∧
        (x.[p - 1] <= x.[p])%Z ∧ (x.[p + 1] <= x.[p])%Z) ∧
  ((length x < 3)%nat ∨ nondecreasing x ∨ nonincreasing x →
     find_peaks x = [] ∧ mean_peak_value x = Ret 0%Q) ∧
  (find_peaks x = [] → mean_peak_value x = Ret 0%Q) ∧
  (find_peaks x ≠ [] →
     mean_peak_value x =
       Ret (Qred (inject_Z (sum_Z (peak_values x)) /
                  inject_Z (Z.of_nat (length (find_peaks x)))))).
Proof.
  assert (find_peaks x = [] → mean_peak_value x = Ret 0%Q) as Hnil.
  { intros Hnil. rewrite mean_peak_value_eq. by rewrite Hnil. }
  split_and!.
  - apply find_peaks_spec.
  - apply find_peaks_sorted.
  - apply strict_local_max_found.
  - apply find_peaks_interior.
  - intros Hcase.
    assert (find_peaks x = []) as Hno.
    { destruct Hcase as [?|[?|?]];
        [by apply find_peaks_short|by apply find_peaks_nondecreasing|
         by apply find_peaks_nonincreasing]. }
    split; [done|by apply Hnil].
  - exact Hnil.
  - intros Hne. rewrite mean_peak_value_eq.
    destruct (find_peaks x) as [|p ps] eqn:Hps; [done|].
    cbn [length Nat.ltb Nat.leb]. unfold np_mean, peak_values.
    by rewrite Hps, length_map.
Qed.

(** C2, as stated, fails on a flat top: in [1, 3, 3, 1] no sample is
    strictly above both neighbours, yet index 1 is returned as a peak and
    the metric is 3, not 0. *)
Lemma flat_top_is_a_peak :
  find_peaks [1; 3; 3; 1]%Z = [1%nat] ∧
  ¬ strict_local_max [1; 3; 3; 1]%Z 1 ∧
  (∀ i, ¬ strict_local_max [1; 3; 3; 1]%Z i) ∧
  mean_peak_value [1; 3; 3; 1]%Z = Ret 3%Q.
Proof.
  assert (∀ i, ¬ strict_local_max [1; 3; 3; 1]%Z i) as Hno.
  { intros i (H1 & H2 & H3 & H4). simpl in H2.
    destruct i as [|[|[|i]]]; simpl in *; lia. }
  split_and!; [reflexivity|apply Hno|exact Hno|reflexivity].
Qed.

(** C3. On [1, 3, 2, 5, 2] the peaks are the indices 1 and 3 and the
    metric is 4, the mean of 3 and 5. *)
Theorem peaks_of_1_3_2_5_2 :
  find_peaks [1; 3; 2; 5; 2]%Z = [1; 3]%nat ∧
  peak_values [1; 3; 2; 5; 2]%Z = [3; 5]%Z ∧
  mean_peak_value [1; 3; 2; 5; 2]%Z = Ret 4%Q.
Proof. split_and!; reflexivity. Qed.

(** The example of a strictly increasing sequence: no peak, metric 0. *)
Example peaks_of_1_2_3_4_5 :
  find_peaks [1; 2; 3; 4; 5]%Z = [] ∧
  mean_peak_value [1; 2; 3; 4; 5]%Z = Ret 0%Q.
Proof. split; reflexivity. Qed.

End Peaks.

(** ** The pipeline *)
Section Pipeline.

Implicit Types (w : world) (class_name : list string) (steps : list read_step)
  (car_counts : list sample).

(** The [except] clause turns every exception into the value [-1]. *)
Lemma detect_cars_never_raises w video_file :
  ∃ value es, detect_cars w video_file = (Ret value, es).
Proof.
  unfold detect_cars. destruct (detect_cars_body w video_file) as [[m|e] es]; eauto.
Qed.

Lemma contains_In (l : list string) (s : string) :
  contains l s = true ↔ In s l.
Proof.
  unfold contains. rewrite existsb_exists. split.
  - by intros (s' & Hin & ->%String.eqb_eq).
  - intros Hin. exists s. split; [done|apply String.eqb_refl].
Qed.

Lemma detect_cars_of_raise w video_file e es :
  detect_cars_body w video_file = (Raise e, es) →
  detect_cars w video_file = (Ret (-1)%Q, es ++ [EvPrint e]).
Proof. unfold detect_cars. by intros ->. Qed.

(** The loop emits no event of its own. *)
Lemma stream_silent class_name steps car_counts :
  snd (stream class_name steps car_counts) = [].
Proof.
  revert car_counts. induction steps as [|[e|f] rest IH]; intros car_counts;
    simpl; [done|done|].
  destruct (detect f) as [classes|e]; simpl; [|done].
  destruct (count_cars class_name classes) as [n|e]; simpl; [|done].
  specialize (IH (observe car_counts (clock f, n))).
  destruct (stream class_name rest _) as [r es]. simpl in *. by subst.
Qed.

(** A faulty step makes the loop raise, whatever came before it. *)
Lemma stream_faulty class_name steps car_counts :
  Exists faulty steps →
  ∃ e, stream class_name steps car_counts = (Raise e, []).
Proof.
  revert car_counts. induction steps as [|[e|f] rest IH]; intros car_counts Hex.
  - by apply Exists_nil in Hex.
  - by exists e.
  - simpl. destruct (detect f) as [classes|e] eqn:Hdet; simpl; [|by exists e].
    destruct (count_cars class_name classes) as [n|e]; simpl; [|by exists e].
    apply Exists_cons in Hex as [Hf|Hrest].
    + inversion Hf; congruence.
    + destruct (IH (observe car_counts (clock f, n)) Hrest) as [e He].
      exists e. by rewrite He.
Qed.

Lemma count_cars_clean class_name classes :
  Forall (λ c, (c < length class_name)%nat) classes →
  ∃ n, count_cars class_name classes = Ret n ∧ (0 <= n)%Z.
Proof.
  induction 1 as [|c classes Hc _ (n & Hn & Hpos)]; simpl; [by exists 0%Z|].
  unfold getitem. apply lookup_lt_is_Some in Hc as [name Hname].
  rewrite Hname. simpl. rewrite Hn. simpl.
  eexists. split; [done|]. destruct (String.eqb name "car"); lia.
Qed.

Lemma count_cars_carless class_name classes :
  Forall (λ c, ∃ name, class_name !! c = Some name ∧ name ≠ "car"%string)
    classes →
  count_cars class_name classes = Ret 0%Z.
Proof.
  induction 1 as [|c classes (name & Hname & Hne) _ IH]; simpl; [done|].
  unfold getitem. rewrite Hname. simpl. rewrite IH. simpl.
  apply String.eqb_neq in Hne. by rewrite Hne.
Qed.

(** When every frame is decoded and counted, the loop returns, and a
    property of the counts that holds of each frame's count holds of every
    count left in the deque. *)
Lemma stream_counts (P : Z → Prop) class_name steps car_counts :
  Forall (λ st, ∃ f classes n, st = ReadFrame f ∧ detect f = Ret classes ∧
                  count_cars class_name classes = Ret n ∧ P n) steps →
  Forall (λ s, P (snd s)) car_counts →
  ∃ car_counts', stream class_name steps car_counts = (Ret car_counts', []) ∧
    Forall (λ s, P (snd s)) car_counts'.
Proof.
  intros Hsteps. revert car_counts.
  induction Hsteps as [|st rest (f & classes & n & -> & Hdet & Hcnt & Hn) _ IH];
    intros car_counts Hacc; simpl.
  - by exists car_counts.
  - rewrite Hdet. simpl. rewrite Hcnt. simpl.
    destruct (IH (observe car_counts (clock f, n))) as (cc & Hcc & Hall).
    + destruct (observe_suffix car_counts (clock f, n)) as [dropped Hdrop].
      assert (Forall (λ s, P (snd s)) (car_counts ++ [(clock f, n)])) as Hall
        by (apply Forall_app; split; [done|by repeat constructor]).
      unfold sample in *. rewrite Hdrop in Hall. by apply Forall_app in Hall as [_ ?].
    + exists cc. by rewrite Hcc.
Qed.

Lemma np_mean_nonneg (vs : list Z) :
  Forall (λ v, (0 <= v)%Z) vs → (0 <= np_mean vs)%Q.
Proof.
  intros Hvs. unfold np_mean. rewrite Qred_correct.
  assert (0 <= sum_Z vs)%Z as Hsum.
  { induction Hvs as [|v vs Hv _ IH]; simpl; [done|]. unfold sum_Z in *. simpl. lia. }
  unfold Qdiv. apply Qmult_le_0_compat.
  - change 0%Q with (inject_Z 0). by rewrite <- Zle_Qle.
  - apply Qinv_le_0_compat. change 0%Q with (inject_Z 0).
    rewrite <- Zle_Qle. lia.
Qed.

Lemma mean_peak_value_nonneg (x : list Z) :
  Forall (λ v, (0 <= v)%Z) x →
  ∃ m, mean_peak_value x = Ret m ∧ (0 <= m)%Q.
Proof.
  intros Hx. rewrite mean_peak_value_eq. eexists. split; [done|].
  destruct (0 <? length (find_peaks x))%nat; [|done].
  apply np_mean_nonneg. unfold peak_values.
  apply Forall_forall. intros v (p & -> & Hp)%list_elem_of_fmap.
  apply find_peaks_interior in Hp as (_ & Hp & _).
  rewrite Forall_forall in Hx. apply Hx, list_elem_of_In, nth_In. lia.
Qed.

Lemma mean_peak_value_zeros (x : list Z) :
  Forall (λ v, v = 0%Z) x → mean_peak_value x = Ret 0%Q.
Proof.
  intros Hx. rewrite mean_peak_value_eq.
  rewrite find_peaks_nondecreasing; [done|]. intros i j Hij.
  rewrite Forall_forall in Hx.
  rewrite (Hx (nth i x 0%Z)), (Hx (nth j x 0%Z)); [done| |];
    apply list_elem_of_In, nth_In; lia.
Qed.

(** The body of the [try] once the configuration has loaded. *)
Lemma detect_cars_body_config_ok w class_name video_file :
  config_ok w class_name →
  detect_cars_body w video_file =
    match Yolov4.videos w video_file with
    | None =>
        (Raise FileNotFoundError,
         [EvReadClasses; EvLoadModel; EvCapture video_file false])
    | Some steps =>
        match fst (stream class_name steps []) with
        | Ret car_counts =>
            match mean_peak_value (map snd car_counts) with
            | Ret mean => (Ret mean, trace_opened video_file ++ [EvRelease video_file])
            | Raise e => (Raise e, trace_opened video_file)
            end
        | Raise e => (Raise e, trace_opened video_file)
        end
    end.
Proof.
  intros (lines & Hlines & -> & Hcar & Hmodel).
  unfold detect_cars_body. rewrite Hlines. cbn -[contains strip map].
  apply contains_In in Hcar. rewrite Hcar.
  cbn -[contains strip map]. rewrite Hmodel. cbn -[contains strip map].
  destruct (Yolov4.videos w video_file) as [steps|]; simpl; [|done].
  pose proof (stream_silent (map strip lines) steps []) as Hsilent.
  destruct (stream (map strip lines) steps []) as [[car_counts|e] es];
    simpl in *; subst es; [|done].
  by destruct (mean_peak_value (map snd car_counts)).
Qed.

(** A valid video yields a non-negative metric, and the capture is
    released. *)
Lemma detect_cars_valid w class_name video_file :
  config_ok w class_name → valid_video w class_name video_file →
  ∃ mean, detect_cars w video_file =
            (Ret mean, trace_opened video_file ++ [EvRelease video_file]) ∧
          (0 <= mean)%Q.
Proof.
  intros Hcfg (steps & Hsteps & Hclean).
  unfold detect_cars. rewrite (detect_cars_body_config_ok w class_name) by done.
  rewrite Hsteps.
  destruct (stream_counts (λ n, 0 <= n)%Z class_name steps []) as (cc & -> & Hcc);
    [|done|].
  { eapply Forall_impl; [exact Hclean|].
    intros st (f & classes & -> & Hdet & Hcls).
    destruct (count_cars_clean class_name classes Hcls) as (n & Hn & Hpos).
    by exists f, classes, n. }
  simpl. destruct (mean_peak_value_nonneg (map snd cc)) as (m & -> & Hm).
  { by apply Forall_fmap. }
  by exists m.
Qed.

(** A video without a car on any frame yields the metric 0. *)
Lemma detect_cars_carless w class_name video_file :
  config_ok w class_name → carless_video w class_name video_file →
  detect_cars w video_file =
    (Ret 0%Q, trace_opened video_file ++ [EvRelease video_file]).
Proof.
  intros Hcfg (steps & Hsteps & Hclean).
  unfold detect_cars. rewrite (detect_cars_body_config_ok w class_name) by done.
  rewrite Hsteps.
  destruct (stream_counts (λ n, n = 0)%Z class_name steps []) as (cc & -> & Hcc);
    [|done|].
  { eapply Forall_impl; [exact Hclean|].
    intros st (f & classes & -> & Hdet & Hcls).
    exists f, classes, 0%Z. split_and!; try done.
    by apply count_cars_carless. }
  simpl. rewrite mean_peak_value_zeros; [done|]. by apply Forall_fmap.
Qed.

(** Without the class "car" the call stops before the model and the video
    are touched. *)
Lemma detect_cars_without_car w lines video_file :
  classes_txt w = Ret lines → ¬ In "car"%string (map strip lines) →
  detect_cars w video_file = (Ret (-1)%Q, [EvReadClasses; EvPrint ValueError]).
Proof.
  intros Hlines Hcar. unfold detect_cars, detect_cars_body.
  rewrite Hlines. cbn -[contains strip map].
  destruct (contains (map strip lines) "car") eqn:Hex; [|done].
  by apply contains_In in Hex.
Qed.

(** After a successful capture a faulty step takes the call through the
    [except] clause, which has no [cap.release()]: the capture is still
    open when [return -1] is evaluated, and it is the finalisation of the
    local that closes it. *)
Lemma capture_open_after_fault w class_name video_file steps :
  config_ok w class_name →
  Yolov4.videos w video_file = Some steps →
  Exists faulty steps →
  cap_at_exit video_file (snd (detect_cars w video_file)) = CapOpen ∧
  cap_after_return video_file (snd (detect_cars w video_file)) = CapClosed.
Proof.
  intros Hcfg Hsteps Hfaulty. unfold detect_cars.
  rewrite (detect_cars_body_config_ok w class_name) by done.
  rewrite Hsteps.
  destruct (stream_faulty class_name steps [] Hfaulty) as [e ->].
  unfold cap_after_return, cap_at_exit. simpl.
  by rewrite String.eqb_refl.
Qed.

(** Every way for a video to be invalid ends in the [except] clause. *)
Lemma detect_cars_sentinel w video_file :
  invalid_video w video_file →
  ∃ es, detect_cars w video_file = (Ret (-1)%Q, es).
Proof.
  intros Hbad.
  assert (∃ e es, detect_cars_body w video_file = (Raise e, es)) as (e & es & He);
    [|eexists; by apply detect_cars_of_raise].
  unfold detect_cars_body.
  destruct (classes_txt w) as [lines|e]; cbn -[contains strip map]; [|by eauto].
  destruct (contains (map strip lines) "car"); simpl; [|by eauto].
  destruct (load_model w) as [[]|e]; simpl; [|by eauto].
  destruct Hbad as [->|(steps & -> & Hfaulty)]; simpl; [by eauto|].
  destruct (stream_faulty (map strip lines) steps [] Hfaulty) as [e ->].
  simpl. by eauto.
Qed.


End Pipeline.

(** ** The coordinator and the activity store *)
Section Coordinator.

Context {TimingPlan : Type}.

Implicit Types (e : env TimingPlan) (st : store TimingPlan)
  (a : activity TimingPlan) (w : world).

Lemma store_eq st st' :
  activities st = activities st' →
  recent_activities st = recent_activities st' →
  users st = users st' →
  folders st = folders st' →
  events st = events st' →
  st = st'.
Proof. destruct st, st'; simpl; by intros -> -> -> -> ->. Qed.

Lemma add_events_nil st : add_events st [] = st.
Proof. apply store_eq; simpl; try done. apply app_nil_r. Qed.

Lemma add_events_app st es es' :
  add_events (add_events st es) es' = add_events st (es ++ es').
Proof. apply store_eq; simpl; try done. by rewrite app_assoc. Qed.

(** The comprehension of line 102 calls the pipeline once per path, in
    order, and keeps what each call returns. *)
Lemma detect_all_spec w paths st :
  ∃ num_cars_list es,
    detect_all w paths st = (Ret num_cars_list, add_events st es) ∧
    Forall2 (λ video n, fst (detect_cars w video) = Ret n) paths num_cars_list ∧
    es = concat (map (λ video, snd (detect_cars w video)) paths).
Proof.
  revert st. induction paths as [|video rest IH]; intros st.
  - exists [], []. by rewrite add_events_nil.
  - destruct (detect_cars_never_raises w video) as (n & es & Hn).
    destruct (IH (add_events st es)) as (ns & es' & Hns & Hall & Hes').
    exists (n :: ns), (es ++ es'). split_and!.
    + cbn [detect_all]. unfold mbind, H_bind, run_M. rewrite Hn. simpl.
      rewrite Hns. cbn. by rewrite add_events_app.
    + constructor; [by rewrite Hn|done].
    + simpl. by rewrite Hn, Hes'.
Qed.

(** What [approve_activity] does once the loop has found its activity. *)
Lemma approve_activity_found e activity_id st i a :
  list_find (pending_with_id activity_id) (activities st) = Some (i, a) →
  ∃ north south east west es,
    fst (detect_cars (cv e) (video_path activity_id "north")) = Ret north ∧
    fst (detect_cars (cv e) (video_path activity_id "south")) = Ret south ∧
    fst (detect_cars (cv e) (video_path activity_id "east")) = Ret east ∧
    fst (detect_cars (cv e) (video_path activity_id "west")) = Ret west ∧
    es = concat (map (λ video, snd (detect_cars (cv e) video))
                   (video_paths activity_id)) ∧
    approve_activity e activity_id st =
      match optimize_traffic e [north; south; east; west] with
      | Raise x => (Raise x, add_events st es)
      | Ret plan =>
          (Ret (BSuccess, 200%nat),
           {| activities :=
                alter (approved_with plan (flow_report north south east west)) i
                  (activities st);
              recent_activities :=
                recent_activities st ++
                  [admin_log e "approved" activity_id (userId a)];
              users := users st;
              folders := folders st;
              events := events st ++ es |})
      end.
Proof.
  intros Hfind.
  destruct (detect_all_spec (cv e) (video_paths activity_id) st)
    as (nums & es & Hrun & Hall & Hes).
  unfold video_paths, directions in Hall. simpl in Hall.
  apply Forall2_cons_inv_l in Hall as (north & nums1 & Hn & Hall & ->).
  apply Forall2_cons_inv_l in Hall as (south & nums2 & Hs & Hall & ->).
  apply Forall2_cons_inv_l in Hall as (east & nums3 & He & Hall & ->).
  apply Forall2_cons_inv_l in Hall as (west & nums4 & Hw & Hall & ->).
  apply Forall2_nil_inv_l in Hall as ->.
  exists north, south, east, west, es. split_and!; try done.
  unfold approve_activity. rewrite Hfind.
  unfold mbind at 1. unfold H_bind at 1. rewrite Hrun.
  unfold mbind at 1. unfold H_bind at 1. unfold liftH at 1.
  destruct (optimize_traffic e [north; south; east; west]) as [plan|x]; [|done].
  unfold mbind, H_bind, mret, H_ret, liftH, set_activities,
    set_recent_activities. cbn.
  f_equal. apply store_eq; simpl; try done.
  by rewrite !list_alter_alter_eq.
Qed.

Lemma approve_activity_not_found e activity_id st :
  list_find (pending_with_id activity_id) (activities st) = None →
  approve_activity e activity_id st =
    (Ret (BError "Activity not found or already processed", 404%nat), st).
Proof. intros Hfind. unfold approve_activity. by rewrite Hfind. Qed.

Lemma reject_activity_found e activity_id st i a :
  list_find (pending_with_id activity_id) (activities st) = Some (i, a) →
  reject_activity e activity_id st =
    (Ret (BSuccess, 200%nat),
     {| activities := alter (set_status rejected) i (activities st);
        recent_activities :=
          recent_activities st ++ [admin_log e "rejected" activity_id (userId a)];
        users := users st;
        folders := folders st;
        events := events st |}).
Proof. intros Hfind. unfold reject_activity. by rewrite Hfind. Qed.

Lemma reject_activity_not_found e activity_id st :
  list_find (pending_with_id activity_id) (activities st) = None →
  reject_activity e activity_id st =
    (Ret (BError "Activity not found or already processed", 404%nat), st).
Proof. intros Hfind. unfold reject_activity. by rewrite Hfind. Qed.

Lemma flow_report_lookup north south east west :
  flow_report north south east west !! "north"%string = Some north ∧
  flow_report north south east west !! "south"%string = Some south ∧
  flow_report north south east west !! "east"%string = Some east ∧
  flow_report north south east west !! "west"%string = Some west.
Proof.
  unfold flow_report.
  split_and!; repeat (rewrite lookup_insert_ne by done); apply lookup_insert_eq.
Qed.

Lemma elem_of_directions (d : string) :
  d ∈ directions →
  d = "north"%string ∨ d = "south"%string ∨ d = "east"%string ∨
  d = "west"%string.
Proof. unfold directions. rewrite !elem_of_cons, elem_of_nil. tauto. Qed.

Lemma approved_with_lookup (l : list (activity TimingPlan)) i a plan counts :
  l !! i = Some a →
  alter (approved_with plan counts) i l !! i = Some (approved_with plan counts a).
Proof. intros Hi. by rewrite list_lookup_alter_eq, Hi. Qed.

(** C5. With a loaded configuration, three valid videos and one invalid
    video, and an optimizer that returns, approving the activity stores a
    report that maps every direction to the very value [detect_cars]
    returned for it: [-1] for the direction of the invalid video and a
    non-negative metric for each of the other three. *)
Theorem coordinator_isolates_one_failure e activity_id st i a class_name bad :
  config_ok (cv e) class_name →
  list_find (pending_with_id activity_id) (activities st) = Some (i, a) →
  bad ∈ directions →
  invalid_video (cv e) (video_path activity_id bad) →
  (∀ d, d ∈ directions → d ≠ bad →
        valid_video (cv e) class_name (video_path activity_id d)) →
  (∀ num_cars_list, returned (optimize_traffic e num_cars_list)) →
  ∃ st' a' report,
    approve_activity e activity_id st = (Ret (BSuccess, 200%nat), st') ∧
    activities st' !! i = Some a' ∧
    trafficCounts a' = Some report ∧
    (∀ d, d ∈ directions →
          ∃ n, fst (detect_cars (cv e) (video_path activity_id d)) = Ret n ∧
               report !! d = Some n) ∧
    report !! bad = Some (-1)%Q ∧
    (∀ d, d ∈ directions → d ≠ bad →
          ∃ n, report !! d = Some n ∧ (0 <= n)%Q).
Proof.
  intros Hcfg Hfind Hbad Hinvalid Hvalid Hopt.
  destruct (approve_activity_found e activity_id st i a Hfind)
    as (north & south & east & west & es & Hn & Hs & He & Hw & _ & Hrun).
  destruct (Hopt [north; south; east; west]) as [plan Hplan].
  rewrite Hplan in Hrun.
  apply list_find_Some in Hfind as (Hi & _ & _).
  destruct (flow_report_lookup north south east west) as (Ln & Ls & Le & Lw).
  assert (∀ d, d ∈ directions →
            ∃ n, fst (detect_cars (cv e) (video_path activity_id d)) = Ret n ∧
                 flow_report north south east west !! d = Some n) as Hverbatim.
  { intros d [-> | [-> | [-> | ->]]]%elem_of_directions; eauto. }
  eexists _, _, _. split_and!.
  - exact Hrun.
  - simpl. by apply approved_with_lookup.
  - done.
  - exact Hverbatim.
  - destruct (Hverbatim bad Hbad) as (n & Hdet & Hlook).
    destruct (detect_cars_sentinel (cv e) _ Hinvalid) as [es' Hes'].
    rewrite Hes' in Hdet. simpl in Hdet. congruence.
  - intros d Hd Hne.
    destruct (Hverbatim d Hd) as (n & Hdet & Hlook).
    destruct (detect_cars_valid (cv e) class_name _ Hcfg (Hvalid d Hd Hne))
      as (m & Hm & Hpos).
    rewrite Hm in Hdet. simpl in Hdet. exists n. split; [done|congruence].
Qed.

(** C6. With a loaded configuration and four videos that decode without
    a single car, every frame counts 0, each pipeline returns 0, and
    approving the activity stores a report that maps all four directions to
    0; the value 0 is not the sentinel [-1]. *)
Theorem coordinator_reports_zero_flow e activity_id st i a class_name :
  config_ok (cv e) class_name →
  list_find (pending_with_id activity_id) (activities st) = Some (i, a) →
  (∀ d, d ∈ directions →
        carless_video (cv e) class_name (video_path activity_id d)) →
  (∀ num_cars_list, returned (optimize_traffic e num_cars_list)) →
  (∀ d steps, d ∈ directions →
     Yolov4.videos (cv e) (video_path activity_id d) = Some steps →
     Forall (λ step, ∃ f classes, step = ReadFrame f ∧ detect f = Ret classes ∧
                       count_cars class_name classes = Ret 0%Z) steps) ∧
  (∀ d, d ∈ directions →
     fst (detect_cars (cv e) (video_path activity_id d)) = Ret 0%Q) ∧
  (∃ st' a' report,
     approve_activity e activity_id st = (Ret (BSuccess, 200%nat), st') ∧
     activities st' !! i = Some a' ∧
     trafficCounts a' = Some report ∧
     ∀ d, d ∈ directions → report !! d = Some 0%Q) ∧
  ¬ (0 == -1)%Q.
Proof.
  intros Hcfg Hfind Hquiet Hopt.
  assert (∀ d, d ∈ directions →
            fst (detect_cars (cv e) (video_path activity_id d)) = Ret 0%Q)
    as Hzero.
  { intros d Hd. by rewrite (detect_cars_carless _ class_name _ Hcfg (Hquiet d Hd)). }
  split_and!; [|exact Hzero| |discriminate].
  - intros d steps Hd Hsteps.
    destruct (Hquiet d Hd) as (steps' & Hsteps' & Hall).
    assert (steps' = steps) as -> by congruence.
    eapply Forall_impl; [exact Hall|].
    intros step (f & classes & -> & Hdet & Hcls).
    exists f, classes. split_and!; try done. by apply count_cars_carless.
  - destruct (approve_activity_found e activity_id st i a Hfind)
      as (north & south & east & west & es & Hn & Hs & He & Hw & _ & Hrun).
    destruct (Hopt [north; south; east; west]) as [plan Hplan].
    rewrite Hplan in Hrun.
    apply list_find_Some in Hfind as (Hi & _ & _).
    destruct (flow_report_lookup north south east west) as (Ln & Ls & Le & Lw).
    unfold directions in Hzero.
    rewrite (Hzero "north"%string) in Hn by (rewrite !elem_of_cons; tauto).
    rewrite (Hzero "south"%string) in Hs by (rewrite !elem_of_cons; tauto).
    rewrite (Hzero "east"%string) in He by (rewrite !elem_of_cons; tauto).
    rewrite (Hzero "west"%string) in Hw by (rewrite !elem_of_cons; tauto).
    eexists _, _, _. split_and!.
    + exact Hrun.
    + simpl. by apply approved_with_lookup.
    + done.
    + intros d [-> | [-> | [-> | ->]]]%elem_of_directions; congruence.
Qed.

(** C7, as amended. When the vocabulary read from classes.txt lacks
    "car", nothing fails at startup: every call of [detect_cars] reads
    the vocabulary again, raises before the model is loaded and before any
    video is opened, and returns [-1]; approving an activity then marks it
    approved with a report that maps all four directions to [-1]. *)
Theorem vocabulary_without_car_gives_sentinels e activity_id st i a lines :
  classes_txt (cv e) = Ret lines →
  ¬ In "car"%string (map strip lines) →
  list_find (pending_with_id activity_id) (activities st) = Some (i, a) →
  (∀ num_cars_list, returned (optimize_traffic e num_cars_list)) →
  (∀ video_file,
     detect_cars (cv e) video_file =
       (Ret (-1)%Q, [EvReadClasses; EvPrint ValueError])) ∧
  ∃ st' a' es,
    approve_activity e activity_id st = (Ret (BSuccess, 200%nat), st') ∧
    activities st' !! i = Some a' ∧
    status a' = approved ∧
    trafficCounts a' = Some (flow_report (-1) (-1) (-1) (-1)) ∧
    events st' = events st ++ es ∧
    Forall (λ ev, is_capture ev = false) es.
Proof.
  intros Hlines Hcar Hfind Hopt.
  pose proof (λ v, detect_cars_without_car (cv e) lines v Hlines Hcar) as Hdet.
  split; [exact Hdet|].
  destruct (approve_activity_found e activity_id st i a Hfind)
    as (north & south & east & west & es & Hn & Hs & He & Hw & Hes & Hrun).
  rewrite Hdet in Hn, Hs, He, Hw. simpl in Hn, Hs, He, Hw.
  injection Hn as <-. injection Hs as <-. injection He as <-. injection Hw as <-.
  destruct (Hopt [(-1)%Q; (-1)%Q; (-1)%Q; (-1)%Q]) as [plan Hplan].
  rewrite Hplan in Hrun.
  apply list_find_Some in Hfind as (Hi & _ & _).
  eexists _, _, es. split_and!.
  - exact Hrun.
  - simpl. by apply approved_with_lookup.
  - done.
  - done.
  - done.
  - subst es. unfold video_paths, directions. simpl. rewrite !Hdet. simpl.
    repeat constructor.
Qed.

(** C10. [approve_activity] and [reject_activity] answer 404 and leave
    the stores as they are when no activity has the given id and the status
    "pending"; whatever they answer, the list of activities keeps its
    length and every activity that is not pending under that id stays as it
    is; and when they answer 200 the only change to the list is at one
    activity that had the id and was pending, which becomes approved with
    its plan and counts, or rejected. *)
Theorem status_changes_only_from_pending e activity_id st :
  ((∀ a, a ∈ activities st → ¬ pending_with_id activity_id a) →
     approve_activity e activity_id st = (not_found, st) ∧
     reject_activity e activity_id st = (not_found, st)) ∧
  (∀ r st',
     approve_activity e activity_id st = (r, st') ∨
     reject_activity e activity_id st = (r, st') →
     length (activities st') = length (activities st) ∧
     ∀ j a, activities st !! j = Some a → ¬ pending_with_id activity_id a →
            activities st' !! j = Some a) ∧
  (∀ st',
     approve_activity e activity_id st = (Ret (BSuccess, 200%nat), st') →
     ∃ i a plan counts,
       activities st !! i = Some a ∧ pending_with_id activity_id a ∧
       activities st' = alter (approved_with plan counts) i (activities st) ∧
       status (approved_with plan counts a) = approved ∧
       result (approved_with plan counts a) = Some plan ∧
       trafficCounts (approved_with plan counts a) = Some counts) ∧
  (∀ st',
     reject_activity e activity_id st = (Ret (BSuccess, 200%nat), st') →
     ∃ i a,
       activities st !! i = Some a ∧ pending_with_id activity_id a ∧
       activities st' = alter (set_status rejected) i (activities st) ∧
       status (set_status rejected a) = rejected).
Proof.
  destruct (list_find (pending_with_id activity_id) (activities st))
    as [[i a]|] eqn:Hfind.
  - pose proof Hfind as (Hi & Hpend & _)%list_find_Some.
    destruct (approve_activity_found e activity_id st i a Hfind)
      as (north & south & east & west & es & _ & _ & _ & _ & _ & Happrove).
    pose proof (reject_activity_found e activity_id st i a Hfind) as Hreject.
    assert (∀ (f : activity TimingPlan → activity TimingPlan) j b,
              activities st !! j = Some b → ¬ pending_with_id activity_id b →
              alter f i (activities st) !! j = Some b) as Hkeep.
    { intros f j b Hj Hb. rewrite list_lookup_alter_ne; [done|].
      intros <-. congruence. }
    split_and!.
    + intros Hnone. destruct (Hnone a); [|done].
      by eapply list_elem_of_lookup_2.
    + intros r st' [Hrun|Hrun].
      * rewrite Happrove in Hrun.
        destruct (optimize_traffic e [north; south; east; west]);
          injection Hrun as <- <-; simpl.
        -- split; [apply length_alter|apply Hkeep].
        -- done.
      * rewrite Hreject in Hrun. injection Hrun as <- <-. simpl.
        split; [apply length_alter|apply Hkeep].
    + intros st' Hrun. rewrite Happrove in Hrun.
      destruct (optimize_traffic e [north; south; east; west]) as [plan|];
        [|done].
      injection Hrun as <-. by exists i, a, plan, (flow_report north south east west).
    + intros st' Hrun. rewrite Hreject in Hrun. injection Hrun as <-.
      by exists i, a.
  - rewrite (approve_activity_not_found e activity_id st Hfind).
    rewrite (reject_activity_not_found e activity_id st Hfind).
    split_and!.
    + done.
    + by intros r st' [[= <- <-]|[= <- <-]].
    + intros st' [=].
    + intros st' [=].
Qed.

(** Once a file is refused the loop removes the folder and returns the
    400 answer; the files saved before it go with the folder. *)
Lemma save_videos_invalid activity_id folder videos i video_urls st :
  Exists (λ video, allowed_file (filename video) = false) videos →
  (i + length videos ≤ 4)%nat →
  is_Some (folders st !! folder) →
  ∃ st',
    save_videos activity_id folder i videos video_urls st =
      (Ret (inl (BError "Invalid video file", 400%nat)), st') ∧
    activities st' = activities st ∧
    recent_activities st' = recent_activities st ∧
    users st' = users st ∧
    events st' = events st ∧
    folders st' = delete folder (folders st).
Proof.
  revert i video_urls st.
  induction videos as [|video rest IH]; intros i video_urls st Hbad Hlen Hdir.
  - by apply Exists_nil in Hbad.
  - cbn [save_videos].
    destruct (truthy video && allowed_file (filename video)) eqn:Hok.
    + apply andb_true_iff in Hok as [_ Hok].
      apply Exists_cons in Hbad as [Hbad|Hbad]; [congruence|].
      simpl in Hlen.
      destruct (directions !! i) as [direction|] eqn:Hdirection; cycle 1.
      { apply lookup_ge_None in Hdirection. simpl in Hdirection. lia. }
      unfold mbind at 1. unfold H_bind at 1. unfold liftH, getitem.
      rewrite Hdirection.
      unfold mbind at 1. unfold H_bind at 1. unfold save, set_folders at 1.
      match goal with |- context [save_videos _ _ _ _ ?urls ?st1] =>
        destruct (IH (i + 1)%nat urls st1) as (st' & Hrun & Ha & Hr & Hu & He & Hf)
      end; [done|lia| |].
      { simpl. rewrite lookup_alter_eq. by apply fmap_is_Some. }
      exists st'. split_and!; try done.
      rewrite Hf. simpl. rewrite delete_alter. by case_decide.
    + unfold mbind, H_bind, rmtree. destruct Hdir as [files Hfiles].
      rewrite Hfiles. eexists. split_and!; reflexivity.
Qed.

(** C9. A request without videos or without a user id, with a number of
    videos other than 4, or with a file whose name is not allowed, leaves
    the activities, the log, the users and the upload directory exactly as
    they were. The answer is a 400 error, unless the folder named by the
    fresh identifier exists already, in which case [os.makedirs] raises and
    nothing has been written either. *)
Theorem upload_error_leaves_stores e rq st :
  files_videos rq = None ∨ form_userId rq = None ∨
  (∃ videos, files_videos rq = Some videos ∧
     (length videos ≠ 4%nat ∨
      Exists (λ video, allowed_file (filename video) = false) videos)) →
  ∃ r,
    upload_files e rq st = (r, st) ∧
    (bad_request r ∨
     r = Raise FileExistsError ∧
     is_Some (folders st !! path_join UPLOAD_FOLDER (uuid4 e 0))).
Proof.
  intros Hbad. unfold upload_files.
  destruct (files_videos rq) as [videos|] eqn:Hvideos; cycle 1.
  { eexists. split; [done|]. left. by eexists. }
  destruct (form_userId rq) as [user_id|] eqn:Huser; cycle 1.
  { eexists. split; [done|]. left. by eexists. }
  destruct (length videos =? 4)%nat eqn:Hlen; cycle 1.
  { eexists. split; [done|]. left. by eexists. }
  apply Nat.eqb_eq in Hlen. cbn [negb].
  destruct Hbad as [?|[?|(videos' & [= <-] & [?|Hbad])]]; [done|done|done|].
  set (folder := path_join UPLOAD_FOLDER (uuid4 e 0)).
  unfold mbind at 1. unfold H_bind at 1. unfold makedirs.
  destruct (folders st !! folder) as [files|] eqn:Hfolder.
  { eexists. split; [done|]. right. by split. }
  unfold set_folders at 1.
  set (st1 := {| activities := activities st;
                 recent_activities := recent_activities st;
                 users := users st;
                 folders := <[folder:=∅]> (folders st);
                 events := events st |}).
  destruct (save_videos_invalid (uuid4 e 0) folder videos 0 [] st1)
    as (st' & Hrun & Ha & Hr & Hu & He & Hf); [done|lia| |].
  { simpl. rewrite lookup_insert_eq. by eexists. }
  unfold mbind, H_bind. rewrite Hrun.
  assert (st' = st) as ->.
  { apply store_eq; try done. rewrite Hf. simpl.
    rewrite delete_insert_eq. by apply delete_id. }
  eexists. split; [done|]. left. by eexists.
Qed.

End Coordinator.

(** ** Runs on concrete worlds *)
Section Runs.

Import Samples.

Lemma coordinator_isolates_one_failure_witness :
  ∃ st' a' report,
    approve_activity (env_of (world_of vocabulary three_of_four)) "a1"
      (store_of [done_a0; pending_a1]) = (Ret (BSuccess, 200%nat), st') ∧
    activities st' !! 1%nat = Some a' ∧
    trafficCounts a' = Some report ∧
    (∀ d, d ∈ directions →
          ∃ n, fst (detect_cars (world_of vocabulary three_of_four)
                      (video_path "a1" d)) = Ret n ∧
               report !! d = Some n) ∧
    report !! "west"%string = Some (-1)%Q ∧
    (∀ d, d ∈ directions → d ≠ "west"%string →
          ∃ n, report !! d = Some n ∧ (0 <= n)%Q).
Proof.
  apply (coordinator_isolates_one_failure
           (env_of (world_of vocabulary three_of_four)) "a1"
           (store_of [done_a0; pending_a1]) 1 pending_a1
           (map strip vocabulary) "west").
  - exists vocabulary. split_and!; [reflexivity|reflexivity| |reflexivity].
    vm_compute. tauto.
  - reflexivity.
  - unfold directions. rewrite !elem_of_cons. tauto.
  - left. reflexivity.
  - intros d [-> | [-> | [-> | ->]]]%elem_of_directions Hne; [| | |done];
      (eexists; split; [reflexivity|]);
      repeat constructor;
      (eexists _, _; split_and!; [reflexivity|reflexivity|]);
      repeat constructor.
  - intros num_cars_list. by eexists.
Defined.


Lemma coordinator_reports_zero_flow_witness :
  ∃ st' a' report,
    approve_activity (env_of (world_of vocabulary no_traffic)) "a1"
      (store_of [done_a0; pending_a1]) = (Ret (BSuccess, 200%nat), st') ∧
    activities st' !! 1%nat = Some a' ∧
    trafficCounts a' = Some report ∧
    ∀ d, d ∈ directions → report !! d = Some 0%Q.
Proof.
  refine (proj1 (proj2 (proj2
    (coordinator_reports_zero_flow
       (env_of (world_of vocabulary no_traffic)) "a1"
       (store_of [done_a0; pending_a1]) 1 pending_a1
       (map strip vocabulary) _ _ _ _)))).
  - exists vocabulary. split_and!; [reflexivity|reflexivity| |reflexivity].
    vm_compute. tauto.
  - reflexivity.
  - intros d [-> | [-> | [-> | ->]]]%elem_of_directions;
      (eexists; split; [reflexivity|]);
      repeat constructor;
      (eexists _, _; split_and!; [reflexivity|reflexivity|]);
      repeat constructor; by eexists.
  - intros num_cars_list. by eexists.
Defined.

Lemma vocabulary_without_car_gives_sentinels_witness :
  ∃ st' a' es,
    approve_activity (env_of (world_of ["person"; "truck"]%string three_of_four))
      "a1" (store_of [done_a0; pending_a1]) = (Ret (BSuccess, 200%nat), st') ∧
    activities st' !! 1%nat = Some a' ∧
    status a' = approved ∧
    trafficCounts a' = Some (flow_report (-1) (-1) (-1) (-1)) ∧
    events st' = events (store_of [done_a0; pending_a1]) ++ es ∧
    Forall (λ ev, is_capture ev = false) es.
Proof.
  refine (proj2
    (vocabulary_without_car_gives_sentinels
       (env_of (world_of ["person"; "truck"]%string three_of_four)) "a1"
       (store_of [done_a0; pending_a1]) 1 pending_a1
       ["person"; "truck"]%string _ _ _ _)).
  - reflexivity.
  - vm_compute. intros [H|[H|[]]]; discriminate H.
  - reflexivity.
  - intros num_cars_list. by eexists.
Defined.

(** C7, as stated, fails: with a vocabulary that lacks "car" the process
    starts, each call discovers the absence on its own and answers with the
    sentinel, and approval stores a report of four sentinels. *)
Lemma missing_car_class_becomes_sentinel :
  let w := world_of ["person"; "truck"]%string three_of_four in
  let st := store_of [done_a0; pending_a1] in
  detect_cars w (video_path "a1" "north") =
    (Ret (-1)%Q, [EvReadClasses; EvPrint ValueError]) ∧
  ∃ st',
    approve_activity (env_of w) "a1" st = (Ret (BSuccess, 200%nat), st') ∧
    (activities st' !! 1%nat ≫= trafficCounts)
      = Some (flow_report (-1) (-1) (-1) (-1)) ∧
    status <$> activities st' !! 1%nat = Some approved.
Proof.
  intros w st. split; [reflexivity|].
  eexists. split_and!; reflexivity.
Qed.

Lemma upload_error_leaves_stores_witness :
  ∃ r,
    upload_files (env_of (world_of vocabulary three_of_four)) bad_upload
      (store_of [done_a0; pending_a1]) = (r, store_of [done_a0; pending_a1]) ∧
    (bad_request r ∨
     r = Raise FileExistsError ∧
     is_Some (folders (store_of [done_a0; pending_a1])
                !! path_join UPLOAD_FOLDER "u0")).
Proof.
  apply (upload_error_leaves_stores
           (env_of (world_of vocabulary three_of_four)) bad_upload
           (store_of [done_a0; pending_a1])).
  right. right. eexists. split; [reflexivity|]. right.
  apply Exists_cons_tl, Exists_cons_hd. reflexivity.
Defined.

End Runs.

(** ** Further properties of the pipeline *)
Section PipelineMore.

Implicit Types (w : world) (class_name : list string) (steps : list read_step)
  (car_counts obs : list sample) (s : sample) (x : list Z).

Lemma evict_snoc_recent now car_counts s :
  recent now s = true →
  last (evict now (car_counts ++ [s])) = Some s ∧
  ∀ oldest, head (evict now (car_counts ++ [s])) = Some oldest →
            recent now oldest = true.
Proof.
  intros Hs. induction car_counts as [|a rest IH]; simpl.
  - unfold recent in Hs. apply negb_true_iff in Hs. rewrite Hs. simpl.
    split; [done|]. intros oldest [= <-]. unfold recent. by rewrite Hs.
  - destruct (Qltb (fst a) (now - 30)) eqn:Ha; [done|].
    split.
    + change (a :: rest ++ [s]) with ((a :: rest) ++ [s]). apply last_snoc.
    + intros oldest [= <-]. unfold recent. by rewrite Ha.
Qed.

(** After every observation, whatever the clock did, the deque is not
    empty, its right end is the sample just observed, and its left end is
    not more than 30 seconds older than that sample. *)
Theorem window_ends_after_observe obs s :
  last (accumulate (obs ++ [s])) = Some s ∧
  ∃ oldest, head (accumulate (obs ++ [s])) = Some oldest ∧
            (fst s - 30 <= fst oldest)%Q.
Proof.
  rewrite accumulate_snoc. unfold observe.
  destruct (evict_snoc_recent (fst s) (accumulate obs) s (recent_self s))
    as [Hlast Hhead].
  split; [done|].
  destruct (evict (fst s) (accumulate obs ++ [s])) as [|oldest rest] eqn:Hw;
    [done|].
  exists oldest. split; [done|]. apply recent_le. by apply Hhead.
Qed.

Lemma count_cars_out_of_range class_name classes :
  Exists (λ c, (length class_name ≤ c)%nat) classes →
  count_cars class_name classes = Raise IndexError.
Proof.
  induction classes as [|c classes IH]; intros Hex.
  - by apply Exists_nil in Hex.
  - simpl. unfold getitem.
    destruct (class_name !! c) as [name|] eqn:Hname; [|done].
    simpl. apply Exists_cons in Hex as [Hc|Hrest].
    + apply lookup_lt_Some in Hname. lia.
    + by rewrite (IH Hrest).
Qed.

(** The count of a frame is the number of its detections whose class is
    "car"; it is an [IndexError] exactly when a class id lies outside the
    vocabulary. *)
Theorem count_cars_counts class_name classes :
  (Forall (λ c, (c < length class_name)%nat) classes →
   count_cars class_name classes =
     Ret (Z.of_nat (length (List.filter (is_car class_name) classes)))) ∧
  (Exists (λ c, (length class_name ≤ c)%nat) classes →
   count_cars class_name classes = Raise IndexError).
Proof.
  split; [|apply count_cars_out_of_range].
  - induction 1 as [|c classes Hc _ IH]; simpl; [done|].
    apply lookup_lt_is_Some in Hc as [name Hname].
    assert (is_car class_name c = String.eqb name "car") as ->
      by (unfold is_car; by rewrite Hname).
    unfold getitem. rewrite Hname. simpl. rewrite IH. simpl.
    destruct (String.eqb name "car"); simpl; f_equal; lia.
Qed.

Lemma count_cars_nonneg class_name classes n :
  count_cars class_name classes = Ret n → (0 <= n)%Z.
Proof.
  revert n. induction classes as [|c classes IH]; intros n; simpl.
  - intros [= <-]. lia.
  - unfold getitem. destruct (class_name !! c) as [name|]; [|done]. simpl.
    destruct (count_cars class_name classes) as [m|]; [|done]. simpl.
    intros [= <-]. specialize (IH m eq_refl).
    destruct (String.eqb name "car"); lia.
Qed.

(** Whatever the frames are, the counts left in the deque when the loop
    returns are non-negative. *)
Lemma stream_nonneg class_name steps car_counts car_counts' :
  fst (stream class_name steps car_counts) = Ret car_counts' →
  Forall (λ s, (0 <= snd s)%Z) car_counts →
  Forall (λ s, (0 <= snd s)%Z) car_counts'.
Proof.
  revert car_counts.
  induction steps as [|[e|f] rest IH]; intros car_counts; simpl.
  - by intros [= <-].
  - done.
  - destruct (detect f) as [classes|]; [|done]. simpl.
    destruct (count_cars class_name classes) as [n|] eqn:Hn; [|done]. simpl.
    destruct (stream class_name rest (observe car_counts (clock f, n)))
      as [[cc|] es'] eqn:Hrest; [|done].
    intros [= <-] Hacc. eapply IH; [by rewrite Hrest|].
    destruct (observe_suffix car_counts (clock f, n)) as [dropped Hdrop].
    assert (Forall (λ s, (0 <= snd s)%Z) (car_counts ++ [(clock f, n)])) as Hall.
    { apply Forall_app. split; [done|]. repeat constructor. simpl.
      by eapply count_cars_nonneg. }
    unfold sample in *. rewrite Hdrop in Hall. by apply Forall_app in Hall as [_ ?].
Qed.

(** Either the configuration is usable, or the call ends in the [except]
    clause before it gets to the video. *)
Lemma detect_cars_config_cases w video_file :
  (∃ class_name, config_ok w class_name) ∨
  (∃ e es, detect_cars w video_file = (Ret (-1)%Q, es ++ [EvPrint e]) ∧
           Forall (λ ev, is_capture ev = false) es).
Proof.
  destruct (classes_txt w) as [lines|e] eqn:Hlines; cycle 1.
  { right. exists e, [EvReadClasses]. split; [|by repeat constructor].
    unfold detect_cars, detect_cars_body. by rewrite Hlines. }
  destruct (contains (map strip lines) "car") eqn:Hcar; cycle 1.
  { right. exists ValueError, [EvReadClasses]. split; [|by repeat constructor].
    unfold detect_cars, detect_cars_body. rewrite Hlines.
    cbn -[contains strip map]. by rewrite Hcar. }
  destruct (load_model w) as [[]|e] eqn:Hmodel; cycle 1.
  { right. exists e, [EvReadClasses; EvLoadModel].
    split; [|by repeat constructor].
    unfold detect_cars, detect_cars_body. rewrite Hlines.
    cbn -[contains strip map]. rewrite Hcar. cbn -[contains strip map].
    by rewrite Hmodel. }
  left. exists (map strip lines), lines. split_and!; try done.
  by apply contains_In.
Qed.

(** What a call returns and does once the configuration is usable. *)
Lemma detect_cars_config_ok w class_name video_file :
  config_ok w class_name →
  detect_cars w video_file =
    (Ret (-1)%Q, [EvReadClasses; EvLoadModel; EvCapture video_file false;
                  EvPrint FileNotFoundError]) ∨
  (∃ e, detect_cars w video_file =
          (Ret (-1)%Q, trace_opened video_file ++ [EvPrint e])) ∨
  (∃ mean, detect_cars w video_file =
             (Ret mean, trace_opened video_file ++ [EvRelease video_file]) ∧
           (0 <= mean)%Q).
Proof.
  intros Hcfg. unfold detect_cars.
  rewrite (detect_cars_body_config_ok w class_name) by done.
  destruct (Yolov4.videos w video_file) as [steps|]; [|by left].
  right.
  destruct (fst (stream class_name steps [])) as [cc|e] eqn:Hstream;
    [|left; by exists e].
  right.
  destruct (mean_peak_value_nonneg (map snd cc)) as (m & -> & Hm).
  { apply Forall_fmap. by eapply stream_nonneg. }
  by exists m.
Qed.

Lemma detect_cars_range w video_file value :
  fst (detect_cars w video_file) = Ret value →
  value = (-1)%Q ∨ (0 <= value)%Q.
Proof.
  intros Hvalue.
  destruct (detect_cars_config_cases w video_file)
    as [[class_name Hcfg]|(e & es & Hrun & _)].
  - destruct (detect_cars_config_ok w class_name video_file Hcfg)
      as [Hrun|[[e Hrun]|(m & Hrun & Hm)]];
      rewrite Hrun in Hvalue; injection Hvalue as <-; auto.
  - rewrite Hrun in Hvalue. injection Hvalue as <-. by left.
Qed.

(** The value of [detect_cars] is [-1] when the call went through the
    [except] clause, whose print is then the last thing it did, and a
    non-negative number otherwise: the sentinel is never a metric. *)
Theorem detect_cars_sentinel_or_metric w video_file :
  ∃ value es,
    detect_cars w video_file = (Ret value, es) ∧
    ((value = (-1)%Q ∧ ∃ e, last es = Some (EvPrint e)) ∨
     ((0 <= value)%Q ∧ Forall (λ ev, ∀ e, ev ≠ EvPrint e) es)).
Proof.
  destruct (detect_cars_config_cases w video_file)
    as [[class_name Hcfg]|(e & es & -> & _)].
  - destruct (detect_cars_config_ok w class_name video_file Hcfg)
      as [->|[[e ->]|(m & -> & Hm)]].
    + eexists _, _. split; [done|]. left. split; [done|]. by eexists.
    + eexists _, _. split; [done|]. left. split; [done|]. by eexists.
    + eexists _, _. split; [done|]. right. split; [done|].
      unfold trace_opened. by repeat constructor.
  - eexists _, _. split; [done|]. left. split; [done|].
    exists e. apply last_snoc.
Qed.

(** A call that returns a metric has read the vocabulary, loaded the
    model, opened the video and released it, in this order and once each;
    the capture is closed by [cap.release()] before the [return], and so
    is not held when the call returns. *)
Theorem detect_cars_metric_releases w video_file value es :
  detect_cars w video_file = (Ret value, es) →
  value ≠ (-1)%Q →
  es = [EvReadClasses; EvLoadModel; EvCapture video_file true;
        EvRelease video_file] ∧
  cap_at_exit video_file es = CapClosed ∧
  cap_after_return video_file es = CapClosed.
Proof.
  intros Hrun Hvalue.
  assert (es = trace_opened video_file ++ [EvRelease video_file]) as ->.
  { destruct (detect_cars_config_cases w video_file)
      as [[class_name Hcfg]|(e & es' & Hes & _)]; [|congruence].
    destruct (detect_cars_config_ok w class_name video_file Hcfg)
      as [H|[[e H]|(m & H & _)]]; congruence. }
  split; [done|]. unfold cap_after_return, cap_at_exit. simpl.
  by rewrite String.eqb_refl.
Qed.


(** A call only reaches [cv.VideoCapture] after classes.txt was read and
    found to contain "car" and the model was loaded. *)
Theorem capture_needs_config w video_file ev :
  ev ∈ snd (detect_cars w video_file) →
  is_capture ev = true →
  ∃ class_name, config_ok w class_name.
Proof.
  intros Hin Hcap.
  destruct (detect_cars_config_cases w video_file)
    as [?|(e & es & Hes & Hnone)]; [done|].
  rewrite Hes in Hin. simpl in Hin.
  apply elem_of_app in Hin as [Hin|Hin].
  - rewrite Forall_forall in Hnone. specialize (Hnone ev Hin). congruence.
  - apply list_elem_of_singleton in Hin. by subst.
Qed.

(** When every frame is decoded and counted the loop is the aggregator
    run over the samples of the frames. *)
Lemma stream_observed class_name steps obs car_counts :
  Forall2 (observed class_name) steps obs →
  stream class_name steps car_counts = (Ret (fold_left observe obs car_counts), []).
Proof.
  intros Hobs. revert car_counts.
  induction Hobs as [|step s steps obs (f & classes & -> & Hdet & Hcnt & Hclk) _ IH];
    intros car_counts; simpl; [done|].
  rewrite Hdet. simpl. rewrite Hcnt. simpl. rewrite IH. simpl.
  destruct s as [t n]. simpl in *. by subst.
Qed.

(** With a usable configuration and a video whose frames are all decoded
    and counted, [detect_cars] returns the mean of the peaks of the counts
    that the trailing window retains from the frames' samples, and
    releases the capture. *)
Theorem detect_cars_aggregates w class_name video_file steps obs :
  config_ok w class_name →
  Yolov4.videos w video_file = Some steps →
  Forall2 (observed class_name) steps obs →
  ∃ mean,
    mean_peak_value (map snd (accumulate obs)) = Ret mean ∧
    detect_cars w video_file =
      (Ret mean, trace_opened video_file ++ [EvRelease video_file]).
Proof.
  intros Hcfg Hsteps Hobs. unfold detect_cars.
  rewrite (detect_cars_body_config_ok w class_name) by done.
  rewrite Hsteps, (stream_observed class_name steps obs [] Hobs). simpl.
  fold (accumulate obs). rewrite mean_peak_value_eq. by eexists.
Qed.

End PipelineMore.

(** ** Edge cases of the pipeline *)
Section PipelineEdges.

Implicit Types (w : world) (class_name : list string) (steps : list read_step)
  (car_counts : list sample).



Lemma stream_length class_name steps car_counts car_counts' :
  fst (stream class_name steps car_counts) = Ret car_counts' →
  (length car_counts' ≤ length car_counts + length steps)%nat.
Proof.
  revert car_counts.
  induction steps as [|[e|f] rest IH]; intros car_counts; simpl.
  - intros [= <-]. lia.
  - done.
  - destruct (detect f) as [classes|]; [|done]. simpl.
    destruct (count_cars class_name classes) as [n|]; [|done]. simpl.
    pose proof (suffix_length _ _ (observe_suffix car_counts (clock f, n)))
      as Hshorter.
    rewrite length_app in Hshorter. simpl in Hshorter.
    specialize (IH (observe car_counts (clock f, n))).
    destruct (stream class_name rest (observe car_counts (clock f, n)))
      as [[cc|] es'] eqn:Hrest; [|done].
    intros [= <-]. specialize (IH eq_refl).
    etrans; [exact IH|]. etrans; [apply Nat.add_le_mono_r, Hshorter|]. lia.
Qed.

(** A video with fewer than three frames, an empty one included, never
    yields a positive metric: the call returns 0 or [-1]. *)
Theorem short_video_has_no_peak w class_name video_file steps :
  config_ok w class_name →
  Yolov4.videos w video_file = Some steps →
  (length steps < 3)%nat →
  fst (detect_cars w video_file) = Ret 0%Q ∨
  fst (detect_cars w video_file) = Ret (-1)%Q.
Proof.
  intros Hcfg Hsteps Hlen. unfold detect_cars.
  rewrite (detect_cars_body_config_ok w class_name) by done.
  rewrite Hsteps.
  destruct (fst (stream class_name steps [])) as [cc|e] eqn:Hstream; [|by right].
  left. apply stream_length in Hstream. simpl in Hstream.
  rewrite mean_peak_value_eq, find_peaks_short; [done|].
  rewrite length_map. unfold sample in *. lia.
Qed.

End PipelineEdges.

(** ** Further properties of the peak estimator *)
Section PeaksMore.

Implicit Types (x : list Z) (i l r p : nat).

Local Notation "x .[ k ]" := (nth k x 0%Z) (at level 1, format "x .[ k ]").

Lemma local_maxima_loop_spaced fuel x i i_max :
  i_max = (length x - 1)%nat → (1 ≤ i)%nat → (i_max - i ≤ fuel)%nat →
  StronglySorted two_apart (local_maxima_loop fuel x i i_max).
Proof.
  intros Himax. revert i.
  induction fuel as [|fuel IH]; intros i Hi Hfuel; cbn [local_maxima_loop];
    [constructor|].
  destruct (i <? i_max)%nat eqn:Hlt; [|constructor].
  apply Nat.ltb_lt in Hlt.
  destruct (x.[i - 1] <? x.[i])%Z; [|apply IH; lia].
  destruct (look_ahead_spec i_max x i (i + 1) i_max) as (Hr & _);
    [lia|lia|intros k ?; by replace k with i by lia|].
  remember (look_ahead i_max x i (i + 1) i_max) as a eqn:Ea. clear Ea.
  destruct (x.[a] <? x.[i])%Z; [|apply IH; lia].
  constructor; [apply IH; lia|].
  apply Forall_forall. intros q Hq.
  apply list_elem_of_In, local_maxima_loop_spec in Hq
    as (l & r & Hpk & Hl & ->); [|done|lia|lia].
  pose proof (plateau_peak_middle x l r Hpk).
  assert ((i + (a - 1)) / 2 ≤ a - 1)%nat
    by (apply Nat.Div0.div_le_upper_bound; lia).
  unfold two_apart. lia.
Qed.

Lemma spaced_span (ps : list nat) lo hi :
  StronglySorted two_apart ps →
  Forall (λ p, (lo ≤ p ≤ hi)%nat) ps →
  ps ≠ [] →
  (lo + 2 * (length ps - 1) ≤ hi)%nat.
Proof.
  intros Hsorted. revert lo.
  induction Hsorted as [|p ps Hps IH Hp]; intros lo Hrange Hne; [done|].
  apply Forall_cons in Hrange as [Hplo Hrange].
  destruct ps as [|q ps']; [simpl; lia|].
  specialize (IH (p + 2)%nat).
  assert (p + 2 + 2 * (length (q :: ps') - 1) ≤ hi)%nat as Hspan.
  { apply IH; [|done].
    apply Forall_forall. intros z Hz.
    rewrite Forall_forall in Hp, Hrange.
    specialize (Hp z Hz). specialize (Hrange z Hz). unfold two_apart in Hp. lia. }
  simpl in *. lia.
Qed.

(** Two peaks are never neighbours, and a sequence has at most half as
    many peaks as samples (the size [find_peaks] allocates for them). *)
Theorem peaks_are_spaced x :
  StronglySorted two_apart (find_peaks x) ∧
  (2 * length (find_peaks x) ≤ length x)%nat.
Proof.
  assert (StronglySorted two_apart (find_peaks x)) as Hspaced
    by (apply local_maxima_loop_spaced; (done || lia)).
  split; [done|].
  destruct (decide (find_peaks x = [])) as [->|Hne]; [simpl; lia|].
  pose proof (spaced_span (find_peaks x) 1 (length x - 2) Hspaced) as Hspan.
  assert (1 + 2 * (length (find_peaks x) - 1) ≤ length x - 2)%nat.
  { apply Hspan; [|done]. apply Forall_forall. intros p Hp.
    apply find_peaks_interior in Hp. lia. }
  destruct (find_peaks x); [done|]. simpl in *. lia.
Qed.

Lemma sum_Z_bounds (vs : list Z) (lo hi : Z) :
  Forall (λ v, (lo <= v <= hi)%Z) vs →
  (Z.of_nat (length vs) * lo <= sum_Z vs <= Z.of_nat (length vs) * hi)%Z.
Proof.
  induction 1 as [|v vs Hv _ IH]; [simpl; lia|].
  unfold sum_Z in *. simpl foldr. rewrite length_cons. lia.
Qed.

Lemma np_mean_bounds (vs : list Z) (lo hi : Z) :
  vs ≠ [] →
  Forall (λ v, (lo <= v <= hi)%Z) vs →
  (inject_Z lo <= np_mean vs <= inject_Z hi)%Q.
Proof.
  intros Hne Hvs. pose proof (sum_Z_bounds vs lo hi Hvs) as [Hlo Hhi].
  assert (0 < inject_Z (Z.of_nat (length vs)))%Q as Hlen.
  { change 0%Q with (inject_Z 0). rewrite <- Zlt_Qlt.
    destruct vs; [done|]. simpl. lia. }
  unfold np_mean. rewrite Qred_correct. split.
  - apply Qle_shift_div_l; [done|].
    rewrite <- inject_Z_mult, <- Zle_Qle. lia.
  - apply Qle_shift_div_r; [done|].
    rewrite <- inject_Z_mult, <- Zle_Qle. lia.
Qed.

(** When there is a peak the metric lies between the smallest and the
    largest count of the sequence. *)
Theorem mean_peak_value_within_counts x (lo hi : Z) :
  Forall (λ v, (lo <= v <= hi)%Z) x →
  find_peaks x ≠ [] →
  ∃ mean, mean_peak_value x = Ret mean ∧
          (inject_Z lo <= mean <= inject_Z hi)%Q.
Proof.
  intros Hx Hne. rewrite mean_peak_value_eq.
  destruct (find_peaks x) as [|p ps] eqn:Hps; [done|].
  eexists. split; [done|]. cbn [length Nat.ltb Nat.leb].
  apply np_mean_bounds.
  - unfold peak_values. by rewrite Hps.
  - unfold peak_values. apply Forall_forall.
    intros v (q & -> & Hq)%list_elem_of_fmap.
    apply find_peaks_interior in Hq as (_ & Hq & _).
    rewrite Forall_forall in Hx. apply Hx, list_elem_of_In, nth_In. lia.
Qed.

Lemma mean_peak_value_within_counts_witness :
  ∃ mean, mean_peak_value [0; 2; 1; 4; 4; 3]%Z = Ret mean ∧
          (inject_Z 0 <= mean <= inject_Z 4)%Q.
Proof.
  apply (mean_peak_value_within_counts [0; 2; 1; 4; 4; 3]%Z 0 4).
  - repeat constructor; lia.
  - discriminate.
Defined.

End PeaksMore.

(** ** File names *)
Section FileNames.

Lemma list_ascii_of_string_app (a b : string) :
  list_ascii_of_string (a +:+ b) =
    list_ascii_of_string a ++ list_ascii_of_string b.
Proof. induction a as [|c a IH]; simpl; [done|]. by rewrite <- IH. Qed.

Lemma take_until_dot_app (front back : list ascii) :
  existsb (Ascii.eqb dot) front = false →
  take_until_dot (front ++ dot :: back) = front.
Proof.
  induction front as [|c front IH]; simpl.
  - reflexivity.
  - intros [Hc Hfront]%orb_false_iff. rewrite Hc. by rewrite IH.
Qed.

Lemma existsb_rev {A} (f : A → bool) (l : list A) :
  existsb f (rev l) = existsb f l.
Proof.
  induction l as [|a l IH]; simpl; [done|].
  rewrite existsb_app, IH. simpl. destruct (f a), (existsb f l); done.
Qed.

(** [allowed_file] refuses a name without a dot, and otherwise looks only
    at what follows the last dot, without regard to case: for an
    extension [ext] that has no dot, [stem.ext] is allowed exactly when
    [ext] in lower case is one of mp4, avi, mov. *)
Theorem allowed_file_extension (stem ext : string) :
  has_dot ext = false →
  allowed_file ext = false ∧
  allowed_file (stem +:+ "." +:+ ext) = bool_decide (lower ext ∈ ALLOWED_EXTENSIONS).
Proof.
  intros Hext. split; [unfold allowed_file; by rewrite Hext|].
  unfold allowed_file, rsplit_dot_1.
  assert (list_ascii_of_string (stem +:+ "." +:+ ext) =
          list_ascii_of_string stem ++ dot :: list_ascii_of_string ext) as Hsplit.
  { by rewrite !list_ascii_of_string_app. }
  assert (has_dot (stem +:+ "." +:+ ext) = true) as ->.
  { unfold has_dot. rewrite Hsplit, existsb_app. simpl.
    by rewrite ?Ascii.eqb_refl, ?orb_true_r. }
  simpl. rewrite Hsplit, rev_app_distr. simpl. rewrite <- app_assoc. simpl.
  rewrite take_until_dot_app by (by rewrite existsb_rev).
  by rewrite rev_involutive, string_of_list_ascii_of_string.
Qed.

Lemma allowed_file_extension_witness :
  allowed_file "MP4" = false ∧
  allowed_file ("clip.backup" +:+ "." +:+ "MP4")
    = bool_decide (lower "MP4" ∈ ALLOWED_EXTENSIONS).
Proof. apply (allowed_file_extension "clip.backup" "MP4"). reflexivity. Defined.

End FileNames.

(** ** Uploading, deciding and reading back *)
Section StoreMore.

Context {TimingPlan : Type} (plan_truthy : TimingPlan → bool).

Implicit Types (e : env TimingPlan) (st : store TimingPlan)
  (a : activity TimingPlan).

Lemma allowed_file_truthy (video : file_storage) :
  allowed_file (filename video) = true → truthy video = true.
Proof.
  unfold truthy. destruct (filename video); [done|]. done.
Qed.

Lemma upload_files_accepts e rq st videos user_id :
  files_videos rq = Some videos →
  form_userId rq = Some user_id →
  length videos = 4%nat →
  Forall (λ video, allowed_file (filename video) = true) videos →
  folders st !! path_join UPLOAD_FOLDER (uuid4 e 0) = None →
  ∃ st',
    upload_files e rq st = (Ret (BActivityId (uuid4 e 0), 201%nat), st') ∧
    activities st' = activities st ++ [uploaded_activity e user_id] ∧
    recent_activities st' = recent_activities st ++ [upload_log e user_id] ∧
    users st' = users st ∪ {[ user_id ]} ∧
    folders st' =
      <[path_join UPLOAD_FOLDER (uuid4 e 0) := saved_names]> (folders st) ∧
    events st' = events st.
Proof.
  intros Hvideos Huser Hlen Hall Hfresh.
  destruct videos as [|v1 [|v2 [|v3 [|v4 [|]]]]]; try done.
  apply Forall_cons in Hall as [H1 Hall].
  apply Forall_cons in Hall as [H2 Hall].
  apply Forall_cons in Hall as [H3 Hall].
  apply Forall_cons in Hall as [H4 _].
  unfold upload_files. rewrite Hvideos, Huser. cbn [length Nat.eqb negb].
  unfold mbind at 1. unfold H_bind at 1. unfold makedirs. rewrite Hfresh.
  unfold set_folders at 1.
  cbn [save_videos].
  rewrite H1, H2, H3, H4, !allowed_file_truthy by done.
  cbn -[path_join String.append saved_names].
  eexists. split; [reflexivity|]. cbn -[path_join String.append saved_names].
  split_and!; try done.
  rewrite !alter_insert_eq. reflexivity.
Qed.

Lemma upload_files_201_inv e rq st activity_id st' :
  upload_files e rq st = (Ret (BActivityId activity_id, 201%nat), st') →
  activity_id = uuid4 e 0 ∧
  folders st !! path_join UPLOAD_FOLDER (uuid4 e 0) = None ∧
  ∃ videos user_id,
    files_videos rq = Some videos ∧ form_userId rq = Some user_id ∧
    length videos = 4%nat ∧
    Forall (λ video, allowed_file (filename video) = true) videos.
Proof.
  intros Hrun.
  destruct (files_videos rq) as [videos|] eqn:Hvideos;
    [|unfold upload_files in Hrun; by rewrite Hvideos in Hrun].
  destruct (form_userId rq) as [user_id|] eqn:Huser;
    [|unfold upload_files in Hrun; by rewrite Hvideos, Huser in Hrun].
  destruct (decide (length videos = 4%nat)) as [Hlen|Hlen]; cycle 1.
  { unfold upload_files in Hrun. rewrite Hvideos, Huser in Hrun.
    apply Nat.eqb_neq in Hlen. by rewrite Hlen in Hrun. }
  destruct (folders st !! path_join UPLOAD_FOLDER (uuid4 e 0)) as [files|]
    eqn:Hfolder.
  { unfold upload_files in Hrun. rewrite Hvideos, Huser in Hrun.
    apply Nat.eqb_eq in Hlen. rewrite Hlen in Hrun. cbn [negb] in Hrun.
    unfold mbind at 1 in Hrun. unfold H_bind at 1, makedirs in Hrun.
    by rewrite Hfolder in Hrun. }
  destruct (decide (Forall (λ video, allowed_file (filename video) = true)
                      videos)) as [Hall|Hbad];
    [|apply (not_Forall_Exists _) in Hbad].
  - destruct (upload_files_accepts e rq st videos user_id) as (st2 & Hok & _); try done.
    rewrite Hok in Hrun. injection Hrun as <- _. split_and!; try done.
    by exists videos, user_id.
  - exfalso. unfold upload_files in Hrun. rewrite Hvideos, Huser in Hrun.
    pose proof Hlen as Hlen'. apply Nat.eqb_eq in Hlen'. rewrite Hlen' in Hrun.
    cbn [negb] in Hrun.
    unfold mbind at 1 in Hrun. unfold H_bind at 1, makedirs in Hrun.
    rewrite Hfolder in Hrun. unfold set_folders at 1 in Hrun.
    set (st1 := {| activities := activities st;
                   recent_activities := recent_activities st;
                   users := users st;
                   folders := <[path_join UPLOAD_FOLDER (uuid4 e 0):=∅]> (folders st);
                   events := events st |}) in Hrun.
    destruct (save_videos_invalid (uuid4 e 0)
                (path_join UPLOAD_FOLDER (uuid4 e 0)) videos 0 [] st1)
      as (st2 & Hloop & _); [|lia| |].
    + eapply Exists_impl; [exact Hbad|]. intros video Hvideo. simpl in Hvideo.
      by destruct (allowed_file (filename video)).
    + simpl. rewrite lookup_insert_eq. by eexists.
    + unfold mbind, H_bind in Hrun. by rewrite Hloop in Hrun.
Qed.

(** A request with a user id and four files with allowed names, whose
    fresh folder does not exist yet, is answered 201 with the new id. It
    appends one pending activity without result, appends one log entry,
    adds the user, and leaves in the new folder the four names north.mp4,
    south.mp4, east.mp4 and west.mp4, whatever the uploaded files were
    called. *)
Theorem upload_success e rq st videos user_id :
  files_videos rq = Some videos →
  form_userId rq = Some user_id →
  length videos = 4%nat →
  Forall (λ video, allowed_file (filename video) = true) videos →
  folders st !! path_join UPLOAD_FOLDER (uuid4 e 0) = None →
  ∃ st',
    upload_files e rq st = (Ret (BActivityId (uuid4 e 0), 201%nat), st') ∧
    activities st' = activities st ++ [uploaded_activity e user_id] ∧
    recent_activities st' = recent_activities st ++ [upload_log e user_id] ∧
    users st' = users st ∪ {[ user_id ]} ∧
    folders st' =
      <[path_join UPLOAD_FOLDER (uuid4 e 0) := saved_names]> (folders st) ∧
    events st' = events st.
Proof. apply upload_files_accepts. Qed.

(** The answer 201 is only given to a request that has a user id and
    exactly four files, all with allowed names, and whose fresh folder did
    not exist. *)
Theorem upload_201_only_if e rq st activity_id st' :
  upload_files e rq st = (Ret (BActivityId activity_id, 201%nat), st') →
  activity_id = uuid4 e 0 ∧
  folders st !! path_join UPLOAD_FOLDER (uuid4 e 0) = None ∧
  ∃ videos user_id,
    files_videos rq = Some videos ∧ form_userId rq = Some user_id ∧
    length videos = 4%nat ∧
    Forall (λ video, allowed_file (filename video) = true) videos.
Proof. apply upload_files_201_inv. Qed.

Lemma filter_pending_snoc (l : list (activity TimingPlan)) a :
  status a = pending →
  filter (λ a, status a = pending) (l ++ [a]) =
    filter (λ a, status a = pending) l ++ [a].
Proof. intros Ha. rewrite filter_app. f_equal. by rewrite filter_cons_True. Qed.

(** After an upload answered 201 the list of pending activities is the
    former one followed by the new activity, the dashboard counts one more
    pending task and one more user unless the user was known, and the
    reports are as before. *)
Theorem upload_shows_as_pending e rq st activity_id st' :
  upload_files e rq st = (Ret (BActivityId activity_id, 201%nat), st') →
  ∃ user_id,
    form_userId rq = Some user_id ∧
    fst (get_activities st') =
      fst (get_activities st) ++ [uploaded_activity e user_id] ∧
    pendingTasks (fst (get_dashboard_stats st')) =
      S (pendingTasks (fst (get_dashboard_stats st))) ∧
    totalUsers (fst (get_dashboard_stats st')) =
      (if decide (user_id ∈ users st)
       then totalUsers (fst (get_dashboard_stats st))
       else S (totalUsers (fst (get_dashboard_stats st)))) ∧
    get_reports plan_truthy st' = get_reports plan_truthy st.
Proof.
  intros Hrun.
  destruct (upload_files_201_inv e rq st activity_id st' Hrun)
    as (-> & Hfresh & videos & user_id & Hvideos & Huser & Hlen & Hall).
  destruct (upload_files_accepts e rq st videos user_id)
    as (st2 & Hok & Hact & _ & Husers & _); try done.
  assert (st2 = st') as -> by congruence.
  exists user_id. split; [done|]. simpl.
  rewrite Hact, filter_pending_snoc by done.
  split_and!.
  - done.
  - rewrite length_app. simpl. lia.
  - rewrite Husers. case_decide as Hknown.
    + f_equal. rewrite (comm_L (∪)).
      apply subseteq_union_1_L. by apply singleton_subseteq_l.
    + rewrite size_union by (by apply disjoint_singleton_r).
      rewrite size_singleton. lia.
  - unfold get_reports. rewrite Hact, List.filter_app. simpl.
    by rewrite app_nil_r.
Qed.

(** When [approve_activity] raises, it is [optimize_traffic] that raised;
    the pipelines have run, but no activity, log entry, user or folder has
    changed: the activity is still pending. *)
Theorem approve_failure_keeps_stores e activity_id st x st' :
  approve_activity e activity_id st = (Raise x, st') →
  (∃ num_cars_list, optimize_traffic e num_cars_list = Raise x) ∧
  activities st' = activities st ∧
  recent_activities st' = recent_activities st ∧
  users st' = users st ∧
  folders st' = folders st.
Proof.
  intros Hrun.
  destruct (list_find (pending_with_id activity_id) (activities st))
    as [[i a]|] eqn:Hfind.
  - destruct (approve_activity_found e activity_id st i a Hfind)
      as (north & south & east & west & es & _ & _ & _ & _ & _ & Happrove).
    rewrite Happrove in Hrun.
    destruct (optimize_traffic e [north; south; east; west]) as [plan|y] eqn:Hopt;
      [done|].
    injection Hrun as <- <-. split; [by eexists|done].
  - by rewrite (approve_activity_not_found e activity_id st Hfind) in Hrun.
Qed.

Lemma pending_after_alter (f : activity TimingPlan → activity TimingPlan)
  (l : list (activity TimingPlan)) i a :
  l !! i = Some a → status a = pending → status (f a) ≠ pending →
  S (length (filter (λ b, status b = pending) (alter f i l))) =
    length (filter (λ b, status b = pending) l).
Proof.
  revert i. induction l as [|b l IH]; intros i Hi Ha Hfa; [done|].
  destruct i as [|i]; simpl in Hi.
  - injection Hi as ->. simpl.
    by rewrite filter_cons_False, filter_cons_True.
  - simpl. rewrite !filter_cons. case_decide; simpl; by rewrite <- (IH i).
Qed.

(** A decision answered 200 takes exactly one task off the dashboard's
    count of pending tasks and appends exactly one log entry; a rejection
    runs no pipeline. *)
Theorem decision_takes_one_pending e activity_id st st' :
  approve_activity e activity_id st = (Ret (BSuccess, 200%nat), st') ∨
  reject_activity e activity_id st = (Ret (BSuccess, 200%nat), st') →
  S (pendingTasks (fst (get_dashboard_stats st'))) =
    pendingTasks (fst (get_dashboard_stats st)) ∧
  length (recent_activities st') = S (length (recent_activities st)) ∧
  users st' = users st ∧ folders st' = folders st ∧
  (reject_activity e activity_id st = (Ret (BSuccess, 200%nat), st') →
   events st' = events st).
Proof.
  intros Hrun.
  destruct (list_find (pending_with_id activity_id) (activities st))
    as [[i a]|] eqn:Hfind; cycle 1.
  { rewrite (approve_activity_not_found e activity_id st Hfind) in Hrun.
    rewrite (reject_activity_not_found e activity_id st Hfind) in Hrun.
    by destruct Hrun. }
  pose proof Hfind as (Hi & [_ Hpending] & _)%list_find_Some.
  pose proof (reject_activity_found e activity_id st i a Hfind) as Hreject.
  destruct Hrun as [Hrun|Hrun].
  - destruct (approve_activity_found e activity_id st i a Hfind)
      as (north & south & east & west & es & _ & _ & _ & _ & _ & Happrove).
    rewrite Happrove in Hrun.
    destruct (optimize_traffic e [north; south; east; west]); [|done].
    injection Hrun as <-. simpl. split_and!; try done.
    + by apply (pending_after_alter _ _ i a).
    + rewrite length_app. simpl. lia.
    + rewrite Hreject. intros Heq.
      apply (f_equal snd) in Heq. by apply (f_equal events) in Heq.
  - rewrite Hreject in Hrun.
    injection Hrun as <-. simpl. split_and!; try done.
    + by apply (pending_after_alter _ _ i a).
    + rewrite length_app. simpl. lia.
Qed.

(** The id answered by a successful upload can be decided: rejecting it
    is answered 200, and approving it is never answered 404. *)
Theorem uploaded_activity_can_be_decided e rq st activity_id st' e' :
  upload_files e rq st = (Ret (BActivityId activity_id, 201%nat), st') →
  fst (reject_activity e' activity_id st') = Ret (BSuccess, 200%nat) ∧
  fst (approve_activity e' activity_id st') ≠ not_found.
Proof.
  intros Hrun.
  destruct (upload_files_201_inv e rq st activity_id st' Hrun)
    as (-> & Hfresh & videos & user_id & Hvideos & Huser & Hlen & Hall).
  destruct (upload_files_accepts e rq st videos user_id)
    as (st2 & Hok & Hact & _); try done.
  assert (st2 = st') as -> by congruence.
  destruct (list_find_elem_of (pending_with_id (uuid4 e 0)) (activities st')
              (uploaded_activity e user_id)) as [[i a] Hfind].
  { rewrite Hact. apply elem_of_app. right. by apply list_elem_of_singleton. }
  { done. }
  split.
  - by rewrite (reject_activity_found e' _ st' i a Hfind).
  - destruct (approve_activity_found e' _ st' i a Hfind)
      as (north & south & east & west & es & _ & _ & _ & _ & _ & ->).
    by destruct (optimize_traffic e' [north; south; east; west]).
Qed.

Lemma unique_id_lookup (l : list (activity TimingPlan)) i j a b :
  unique_ids l → l !! i = Some a → l !! j = Some b → id a = id b → i = j.
Proof.
  intros Hnodup Hi Hj Hid.
  apply (NoDup_lookup (map id l) i j (id a)); [done| |].
  - by rewrite list_lookup_fmap, Hi.
  - by rewrite list_lookup_fmap, Hj, Hid.
Qed.

Lemma find_after_alter (f : activity TimingPlan → activity TimingPlan)
  (l : list (activity TimingPlan)) i a (P : activity TimingPlan → Prop)
  `{!∀ b, Decision (P b)} :
  unique_ids l → l !! i = Some a → id (f a) = id a →
  (∀ b, P b → id b = id a) →
  list_find P (alter f i l) = (if decide (P (f a)) then Some (i, f a) else None).
Proof.
  intros Hnodup Hi Hid HP.
  assert (∀ j b, alter f i l !! j = Some b → j ≠ i → ¬ P b) as Hother.
  { intros j b Hj Hne Hb. rewrite list_lookup_alter_ne in Hj by done.
    destruct Hne. symmetry.
    eapply (unique_id_lookup l i j a b); [done..|]. symmetry. by apply HP. }
  assert (alter f i l !! i = Some (f a)) as Hfi
    by (by rewrite list_lookup_alter_eq, Hi).
  case_decide as Hfa.
  - apply list_find_Some. split_and!; [done|done|].
    intros j b Hj Hlt. apply (Hother j b Hj). lia.
  - apply list_find_None, Forall_forall. intros b Hb.
    apply list_elem_of_lookup in Hb as [j Hj].
    destruct (decide (j = i)) as [->|Hne]; [|by eapply Hother].
    congruence.
Qed.

(** With unique ids, an activity that was approved or rejected is closed:
    a further approval or rejection of its id is answered 404 and changes
    nothing. *)
Theorem decided_activity_is_closed e activity_id st st' e' :
  unique_ids (activities st) →
  approve_activity e activity_id st = (Ret (BSuccess, 200%nat), st') ∨
  reject_activity e activity_id st = (Ret (BSuccess, 200%nat), st') →
  approve_activity e' activity_id st' = (not_found, st') ∧
  reject_activity e' activity_id st' = (not_found, st').
Proof.
  intros Hnodup Hrun.
  assert (list_find (pending_with_id activity_id) (activities st') = None)
    as Hclosed; cycle 1.
  { by rewrite (approve_activity_not_found e' activity_id st' Hclosed),
      (reject_activity_not_found e' activity_id st' Hclosed). }
  destruct (list_find (pending_with_id activity_id) (activities st))
    as [[i a]|] eqn:Hfind; cycle 1.
  { rewrite (approve_activity_not_found e activity_id st Hfind) in Hrun.
    rewrite (reject_activity_not_found e activity_id st Hfind) in Hrun.
    by destruct Hrun. }
  pose proof Hfind as (Hi & [Hid Hpending] & _)%list_find_Some.
  assert (∀ f : activity TimingPlan → activity TimingPlan,
            id (f a) = id a → status (f a) ≠ pending →
            list_find (pending_with_id activity_id) (alter f i (activities st))
              = None) as Halter.
  { intros f Hfid Hfst.
    rewrite (find_after_alter f _ i a) by
      (try done; intros b [Hb _]; congruence).
    case_decide as Hfa; [|done]. by destruct Hfa. }
  destruct Hrun as [Hrun|Hrun].
  - destruct (approve_activity_found e activity_id st i a Hfind)
      as (north & south & east & west & es & _ & _ & _ & _ & _ & Happrove).
    rewrite Happrove in Hrun.
    destruct (optimize_traffic e [north; south; east; west]); [|done].
    injection Hrun as <-. simpl. by apply Halter.
  - rewrite (reject_activity_found e activity_id st i a Hfind) in Hrun.
    injection Hrun as <-. simpl. by apply Halter.
Qed.

(** With unique ids, what was decided is what [get_results] answers for
    the id: after an approval the status approved, with the plan that
    [optimize_traffic] returned when that plan counts as true; after a
    rejection the status rejected and no result. *)
Theorem decision_is_read_back e activity_id st st' :
  unique_ids (activities st) →
  (approve_activity e activity_id st = (Ret (BSuccess, 200%nat), st') →
   ∃ plan, (∃ num_cars_list, optimize_traffic e num_cars_list = Ret plan) ∧
     get_results plan_truthy activity_id st' =
       (ResultsOf approved (if plan_truthy plan then Some plan else None),
        200%nat)) ∧
  (reject_activity e activity_id st = (Ret (BSuccess, 200%nat), st') →
   get_results plan_truthy activity_id st' = (ResultsOf rejected None, 200%nat)).
Proof.
  intros Hnodup.
  destruct (list_find (pending_with_id activity_id) (activities st))
    as [[i a]|] eqn:Hfind; cycle 1.
  { rewrite (approve_activity_not_found e activity_id st Hfind).
    rewrite (reject_activity_not_found e activity_id st Hfind). by split. }
  pose proof Hfind as (Hi & [Hid Hpending] & _)%list_find_Some.
  assert (∀ f : activity TimingPlan → activity TimingPlan,
            id (f a) = id a →
            list_find (λ b, id b = activity_id) (alter f i (activities st))
              = Some (i, f a)) as Halter.
  { intros f Hfid.
    rewrite (find_after_alter f _ i a) by (try done; intros b Hb; congruence).
    case_decide as Hfa; [done|]. destruct Hfa. congruence. }
  split; intros Hrun.
  - destruct (approve_activity_found e activity_id st i a Hfind)
      as (north & south & east & west & es & _ & _ & _ & _ & _ & Happrove).
    rewrite Happrove in Hrun.
    destruct (optimize_traffic e [north; south; east; west]) as [plan|] eqn:Hopt;
      [|done].
    injection Hrun as <-. exists plan. split; [by eexists|].
    unfold get_results. simpl. rewrite Halter by done. simpl.
    by destruct (plan_truthy plan).
  - rewrite (reject_activity_found e activity_id st i a Hfind) in Hrun.
    injection Hrun as <-. unfold get_results. simpl. by rewrite Halter.
Qed.

(** [get_results] answers 404 exactly for an id that no activity has, and
    it shows a result only for an approved activity whose result counts
    as true. *)
Theorem get_results_shows_only_approved activity_id st :
  (snd (get_results plan_truthy activity_id st) = 404%nat ↔
   ∀ a, a ∈ activities st → id a ≠ activity_id) ∧
  (∀ s plan,
     fst (get_results plan_truthy activity_id st) = ResultsOf s (Some plan) →
     s = approved ∧ plan_truthy plan = true ∧
     ∃ a, a ∈ activities st ∧ id a = activity_id ∧ status a = approved ∧
          result a = Some plan).
Proof.
  unfold get_results.
  destruct (list_find (λ a, id a = activity_id) (activities st))
    as [[i a]|] eqn:Hfind; simpl.
  - apply list_find_Some in Hfind as (Hi & Hid & _). split.
    + split; [done|]. intros Hnone. destruct (Hnone a); [|done].
      by eapply list_elem_of_lookup_2.
    + intros s plan [= <- Hshown].
      destruct (decide (status a = approved)) as [Hst|Hst]; cycle 1.
      { by rewrite bool_decide_eq_false_2 in Hshown. }
      rewrite bool_decide_eq_true_2 in Hshown by done. simpl in Hshown.
      destruct (result a) as [p|] eqn:Hres; simpl in Hshown; [|done].
      destruct (plan_truthy p) eqn:Hp; [|done]. injection Hshown as ->.
      split_and!; try done. exists a. split_and!; try done.
      by eapply list_elem_of_lookup_2.
  - apply list_find_None in Hfind. split; [|done]. split; [|done].
    intros _ a Ha. rewrite Forall_forall in Hfind. by apply Hfind.
Qed.

(** The reports are exactly the approved activities whose result counts
    as true, and "totalProcessed" is their number; a pending or rejected
    activity is never reported. *)
Theorem reports_list_approved_results st :
  totalProcessed (fst (get_reports plan_truthy st)) =
    length (reports (fst (get_reports plan_truthy st))) ∧
  ∀ r, r ∈ reports (fst (get_reports plan_truthy st)) ↔
       ∃ a plan, a ∈ activities st ∧ r = report_of a ∧ status a = approved ∧
                 result a = Some plan ∧ plan_truthy plan = true.
Proof.
  unfold get_reports. simpl. split; [done|]. intros r. split.
  - intros (a & -> & Ha)%list_elem_of_fmap.
    apply list_elem_of_In, filter_In in Ha as [Ha Hrep].
    unfold reportable in Hrep. apply andb_true_iff in Hrep as [Hst Hres].
    apply bool_decide_eq_true in Hst.
    destruct (result a) as [plan|] eqn:Hplan; [|done].
    exists a, plan. split_and!; try done. by apply list_elem_of_In.
  - intros (a & plan & Ha & -> & Hst & Hres & Hplan).
    apply list_elem_of_fmap. exists a. split; [done|].
    apply list_elem_of_In, filter_In. split; [by apply list_elem_of_In|].
    unfold reportable. rewrite Hres. simpl. rewrite Hplan.
    by rewrite bool_decide_eq_true_2.
Qed.

Lemma reportable_after_reject (l : list (activity TimingPlan)) i a :
  l !! i = Some a → status a = pending →
  List.filter (reportable plan_truthy) (alter (set_status rejected) i l) =
    List.filter (reportable plan_truthy) l.
Proof.
  revert i. induction l as [|b l IH]; intros i Hi Ha; [done|].
  destruct i as [|i]; simpl in Hi.
  - injection Hi as ->.
    assert (reportable plan_truthy a = false) as Hbefore
      by (unfold reportable; by rewrite Ha).
    assert (reportable plan_truthy (set_status rejected a) = false) as Hafter
      by done.
    cbn [alter list_alter List.filter]. by rewrite Hbefore, Hafter.
  - cbn [alter list_alter List.filter]. by rewrite (IH i).
Qed.

(** Rejecting never changes the reports, whatever it answers. *)
Theorem reject_leaves_reports e activity_id st r st' :
  reject_activity e activity_id st = (r, st') →
  get_reports plan_truthy st' = get_reports plan_truthy st.
Proof.
  intros Hrun.
  destruct (list_find (pending_with_id activity_id) (activities st))
    as [[i a]|] eqn:Hfind.
  - pose proof Hfind as (Hi & [_ Hpending] & _)%list_find_Some.
    rewrite (reject_activity_found e activity_id st i a Hfind) in Hrun.
    injection Hrun as _ <-. unfold get_reports. simpl.
    by rewrite (reportable_after_reject _ i a).
  - rewrite (reject_activity_not_found e activity_id st Hfind) in Hrun.
    by injection Hrun as _ <-.
Qed.

(** An approval answered 200 has called [detect_cars] on the north,
    south, east and west video of the activity, has given
    [optimize_traffic] the four returned values in this order, and has
    stored its plan beside a report that maps each direction to the value
    returned for its video; each value is [-1] or non-negative. *)
Theorem approved_report_shape e activity_id st st' :
  approve_activity e activity_id st = (Ret (BSuccess, 200%nat), st') →
  ∃ i a' north south east west plan,
    fst (detect_cars (cv e) (video_path activity_id "north")) = Ret north ∧
    fst (detect_cars (cv e) (video_path activity_id "south")) = Ret south ∧
    fst (detect_cars (cv e) (video_path activity_id "east")) = Ret east ∧
    fst (detect_cars (cv e) (video_path activity_id "west")) = Ret west ∧
    activities st' !! i = Some a' ∧
    id a' = activity_id ∧ status a' = approved ∧
    optimize_traffic e [north; south; east; west] = Ret plan ∧
    result a' = Some plan ∧
    trafficCounts a' = Some (flow_report north south east west) ∧
    dom (flow_report north south east west) = list_to_set directions ∧
    Forall (λ v, v = (-1)%Q ∨ (0 <= v)%Q) [north; south; east; west].
Proof.
  intros Hrun.
  destruct (list_find (pending_with_id activity_id) (activities st))
    as [[i a]|] eqn:Hfind; cycle 1.
  { by rewrite (approve_activity_not_found e activity_id st Hfind) in Hrun. }
  pose proof Hfind as (Hi & [Hid _] & _)%list_find_Some.
  destruct (approve_activity_found e activity_id st i a Hfind)
    as (north & south & east & west & es & Hn & Hs & He & Hw & _ & Happrove).
  rewrite Happrove in Hrun.
  destruct (optimize_traffic e [north; south; east; west]) as [plan|] eqn:Hopt;
    [|done].
  injection Hrun as <-.
  exists i, (approved_with plan (flow_report north south east west) a),
    north, south, east, west, plan.
  assert (∀ video v, fst (detect_cars (cv e) video) = Ret v →
                     v = (-1)%Q ∨ (0 <= v)%Q) as Hrange.
  { intros video v Hv. by eapply detect_cars_range. }
  split_and!; try done.
  - simpl. by apply approved_with_lookup.
  - repeat (apply Forall_cons; split; [by eauto|]). by apply Forall_nil.
Qed.

Lemma string_leb_trans (a b c : string) :
  String.leb a b = true → String.leb b c = true → String.leb a c = true.
Proof.
  unfold String.leb. revert b c.
  induction a as [|x a IH]; intros [|y b] [|z c]; simpl; try done.
  unfold Ascii.compare.
  destruct (N.compare_spec (N_of_ascii x) (N_of_ascii y)) as [Hxy|Hxy|Hxy];
    [|  |done].
  - rewrite Hxy.
    destruct (N.compare_spec (N_of_ascii y) (N_of_ascii z)); try done.
    apply IH.
  - destruct (N.compare_spec (N_of_ascii y) (N_of_ascii z)) as [Hyz|Hyz|Hyz];
      [| |done]; intros _ _.
    + rewrite <- Hyz. by apply N.compare_lt_iff in Hxy as ->.
    + assert (N_of_ascii x < N_of_ascii z)%N as Hxz by lia.
      by apply N.compare_lt_iff in Hxz as ->.
Qed.

#[local] Instance not_older_trans : Transitive not_older.
Proof. intros a b c Hab Hbc. eapply string_leb_trans; [exact Hbc|exact Hab]. Qed.

Lemma insert_newest_first_perm (x : log_entry) (l : list log_entry) :
  insert_newest_first x l ≡ₚ x :: l.
Proof.
  induction l as [|y l IH]; simpl; [done|].
  destruct (String.leb (log_timestamp y) (log_timestamp x)); [done|].
  rewrite IH. apply Permutation_swap.
Qed.

Lemma sorted_newest_first_perm (l : list log_entry) :
  sorted_newest_first l ≡ₚ l.
Proof.
  induction l as [|x l IH]; simpl; [done|].
  by rewrite insert_newest_first_perm, IH.
Qed.

Lemma insert_newest_first_sorted (x : log_entry) (l : list log_entry) :
  StronglySorted not_older l →
  StronglySorted not_older (insert_newest_first x l).
Proof.
  induction 1 as [|y l Hl IH Hy]; simpl; [by repeat constructor|].
  destruct (String.leb (log_timestamp y) (log_timestamp x)) eqn:Hyx.
  - constructor; [by constructor|]. constructor; [done|].
    eapply Forall_impl; [exact Hy|]. intros z Hz. by etrans.
  - constructor; [done|].
    rewrite insert_newest_first_perm. constructor; [|done].
    unfold not_older.
    destruct (String.leb_total (log_timestamp x) (log_timestamp y)); congruence.
Qed.

Lemma sorted_newest_first_sorted (l : list log_entry) :
  StronglySorted not_older (sorted_newest_first l).
Proof.
  induction l as [|x l IH]; simpl; [constructor|].
  by apply insert_newest_first_sorted.
Qed.

(** [get_recent_activity] answers with the ten entries of the log that
    have the greatest timestamps (all of them when there are fewer), the
    newest first: every entry left out is not newer than any entry
    returned. *)
Theorem recent_activity_newest_first st :
  length (fst (get_recent_activity st)) =
    (length (recent_activities st) `min` 10)%nat ∧
  StronglySorted not_older (fst (get_recent_activity st)) ∧
  ∃ left_out,
    fst (get_recent_activity st) ++ left_out ≡ₚ recent_activities st ∧
    ∀ shown hidden, shown ∈ fst (get_recent_activity st) →
                    hidden ∈ left_out → not_older shown hidden.
Proof.
  unfold get_recent_activity. cbn [fst].
  set (sorted := sorted_newest_first (recent_activities st)).
  assert (StronglySorted not_older (take 10 sorted ++ drop 10 sorted)) as Hsorted
    by (rewrite take_drop; apply sorted_newest_first_sorted).
  apply StronglySorted_app in Hsorted as (Hcross & Htake & _).
  split_and!.
  - rewrite length_take. unfold sorted.
    rewrite (Permutation_length (sorted_newest_first_perm _)). lia.
  - done.
  - exists (drop 10 sorted). split; [|done].
    rewrite take_drop. apply sorted_newest_first_perm.
Qed.

End StoreMore.

(** ** Further runs on concrete worlds *)
Section RunsMore.

Import Samples.


Lemma detect_cars_metric_releases_witness :
  let run := detect_cars (world_of vocabulary three_of_four)
               "uploads/a1/north.mp4" in
  snd run = [EvReadClasses; EvLoadModel;
             EvCapture "uploads/a1/north.mp4" true;
             EvRelease "uploads/a1/north.mp4"] ∧
  cap_at_exit "uploads/a1/north.mp4" (snd run) = CapClosed ∧
  cap_after_return "uploads/a1/north.mp4" (snd run) = CapClosed.
Proof.
  apply (detect_cars_metric_releases (world_of vocabulary three_of_four)
           "uploads/a1/north.mp4" 3%Q).
  - reflexivity.
  - discriminate.
Defined.

Lemma capture_needs_config_witness :
  ∃ class_name, config_ok (world_of vocabulary three_of_four) class_name.
Proof.
  apply (capture_needs_config (world_of vocabulary three_of_four)
           "uploads/a1/west.mp4" (EvCapture "uploads/a1/west.mp4" false)).
  - assert (snd (detect_cars (world_of vocabulary three_of_four)
                   "uploads/a1/west.mp4") =
            [EvReadClasses; EvLoadModel; EvCapture "uploads/a1/west.mp4" false;
             EvPrint FileNotFoundError]) as -> by reflexivity.
    rewrite !elem_of_cons. tauto.
  - reflexivity.
Defined.

Lemma detect_cars_aggregates_witness :
  ∃ mean,
    mean_peak_value (map snd (accumulate north_samples)) = Ret mean ∧
    detect_cars (world_of vocabulary three_of_four) "uploads/a1/north.mp4" =
      (Ret mean, trace_opened "uploads/a1/north.mp4"
                   ++ [EvRelease "uploads/a1/north.mp4"]).
Proof.
  apply (detect_cars_aggregates (world_of vocabulary three_of_four)
           (map strip vocabulary) "uploads/a1/north.mp4"
           [seen [2; 0]%nat 1; seen [2; 2; 2]%nat 2; seen [2]%nat 3]
           north_samples).
  - exists vocabulary. split_and!; [reflexivity|reflexivity| |reflexivity].
    vm_compute. tauto.
  - reflexivity.
  - repeat constructor; eexists _, _; split_and!; reflexivity.
Defined.

Lemma upload_success_witness :
  ∃ st',
    upload_files sample_env good_upload sample_store =
      (Ret (BActivityId "u0", 201%nat), st') ∧
    activities st' = activities sample_store ++ [uploaded_activity sample_env "carol"] ∧
    recent_activities st' =
      recent_activities sample_store ++ [upload_log sample_env "carol"] ∧
    users st' = users sample_store ∪ {[ "carol"%string ]} ∧
    folders st' = <[path_join UPLOAD_FOLDER "u0" := saved_names]>
                    (folders sample_store) ∧
    events st' = events sample_store.
Proof.
  apply (upload_success sample_env good_upload sample_store
           [ {| filename := "n.mp4" |}; {| filename := "s.AVI" |};
             {| filename := "e.mov" |}; {| filename := "w.x.Mp4" |} ]%string
           "carol").
  - reflexivity.
  - reflexivity.
  - reflexivity.
  - repeat constructor.
  - reflexivity.
Defined.

Lemma upload_201_only_if_witness :
  "u0"%string = uuid4 sample_env 0 ∧
  folders sample_store !! path_join UPLOAD_FOLDER (uuid4 sample_env 0) = None ∧
  ∃ videos user_id,
    files_videos good_upload = Some videos ∧
    form_userId good_upload = Some user_id ∧
    length videos = 4%nat ∧
    Forall (λ video, allowed_file (filename video) = true) videos.
Proof.
  apply (upload_201_only_if sample_env good_upload sample_store "u0"
           (snd (upload_files sample_env good_upload sample_store))).
  reflexivity.
Defined.

Lemma upload_shows_as_pending_witness :
  let st' := snd (upload_files sample_env good_upload sample_store) in
  ∃ user_id,
    form_userId good_upload = Some user_id ∧
    fst (get_activities st') =
      fst (get_activities sample_store) ++ [uploaded_activity sample_env user_id] ∧
    pendingTasks (fst (get_dashboard_stats st')) =
      S (pendingTasks (fst (get_dashboard_stats sample_store))) ∧
    totalUsers (fst (get_dashboard_stats st')) =
      (if decide (user_id ∈ users sample_store)
       then totalUsers (fst (get_dashboard_stats sample_store))
       else S (totalUsers (fst (get_dashboard_stats sample_store)))) ∧
    get_reports nonempty st' = get_reports nonempty sample_store.
Proof.
  apply (upload_shows_as_pending nonempty sample_env good_upload sample_store
           "u0" (snd (upload_files sample_env good_upload sample_store))).
  reflexivity.
Defined.

Lemma approve_failure_keeps_stores_witness :
  let e := failing_env (world_of vocabulary three_of_four) in
  let st' := snd (approve_activity e "a1" sample_store) in
  (∃ num_cars_list, optimize_traffic e num_cars_list = Raise OptimizerError) ∧
  activities st' = activities sample_store ∧
  recent_activities st' = recent_activities sample_store ∧
  users st' = users sample_store ∧
  folders st' = folders sample_store.
Proof.
  apply (approve_failure_keeps_stores
           (failing_env (world_of vocabulary three_of_four)) "a1" sample_store
           OptimizerError).
  reflexivity.
Defined.

Lemma decision_takes_one_pending_witness :
  let st' := snd (reject_activity sample_env "a1" sample_store) in
  S (pendingTasks (fst (get_dashboard_stats st'))) =
    pendingTasks (fst (get_dashboard_stats sample_store)) ∧
  length (recent_activities st') = S (length (recent_activities sample_store)) ∧
  users st' = users sample_store ∧ folders st' = folders sample_store ∧
  (reject_activity sample_env "a1" sample_store = (Ret (BSuccess, 200%nat), st') →
   events st' = events sample_store).
Proof.
  apply (decision_takes_one_pending sample_env "a1" sample_store).
  right. reflexivity.
Defined.

Lemma uploaded_activity_can_be_decided_witness :
  let st' := snd (upload_files sample_env good_upload sample_store) in
  fst (reject_activity sample_env "u0" st') = Ret (BSuccess, 200%nat) ∧
  fst (approve_activity sample_env "u0" st') ≠ not_found.
Proof.
  apply (uploaded_activity_can_be_decided sample_env good_upload sample_store
           "u0" _ sample_env).
  reflexivity.
Defined.

Lemma decided_activity_is_closed_witness :
  let st' := snd (approve_activity sample_env "a1" sample_store) in
  approve_activity sample_env "a1" st' = (not_found, st') ∧
  reject_activity sample_env "a1" st' = (not_found, st').
Proof.
  apply (decided_activity_is_closed sample_env "a1" sample_store _ sample_env).
  - unfold unique_ids. simpl. repeat constructor.
    + rewrite list_elem_of_singleton. discriminate.
    + apply not_elem_of_nil.
  - left. reflexivity.
Defined.

Lemma decision_is_read_back_witness :
  let st' := snd (reject_activity sample_env "a1" sample_store) in
  get_results nonempty "a1" st' = (ResultsOf rejected None, 200%nat).
Proof.
  refine (proj2 (decision_is_read_back nonempty sample_env "a1" sample_store
                   (snd (reject_activity sample_env "a1" sample_store)) _) _).
  - unfold unique_ids. simpl. repeat constructor.
    + rewrite list_elem_of_singleton. discriminate.
    + apply not_elem_of_nil.
  - reflexivity.
Defined.

Lemma reject_leaves_reports_witness :
  get_reports nonempty (snd (reject_activity sample_env "a1" sample_store)) =
    get_reports nonempty sample_store.
Proof.
  apply (reject_leaves_reports nonempty sample_env "a1" sample_store
           (Ret (BSuccess, 200%nat))).
  reflexivity.
Defined.


Lemma short_video_has_no_peak_witness :
  fst (detect_cars (world_of vocabulary three_of_four) "uploads/a1/south.mp4")
    = Ret 0%Q ∨
  fst (detect_cars (world_of vocabulary three_of_four) "uploads/a1/south.mp4")
    = Ret (-1)%Q.
Proof.
  apply (short_video_has_no_peak (world_of vocabulary three_of_four)
           (map strip vocabulary) "uploads/a1/south.mp4"
           [seen [0]%nat 1; seen []%nat 2]).
  - exists vocabulary. split_and!; [reflexivity|reflexivity| |reflexivity].
    vm_compute. tauto.
  - reflexivity.
  - simpl. lia.
Defined.

Lemma approved_report_shape_witness :
  let st' := snd (approve_activity sample_env "a1" sample_store) in
  ∃ i a' north south east west plan,
    fst (detect_cars (cv sample_env) (video_path "a1" "north")) = Ret north ∧
    fst (detect_cars (cv sample_env) (video_path "a1" "south")) = Ret south ∧
    fst (detect_cars (cv sample_env) (video_path "a1" "east")) = Ret east ∧
    fst (detect_cars (cv sample_env) (video_path "a1" "west")) = Ret west ∧
    activities st' !! i = Some a' ∧
    id a' = "a1"%string ∧ status a' = approved ∧
    optimize_traffic sample_env [north; south; east; west] = Ret plan ∧
    result a' = Some plan ∧
    trafficCounts a' = Some (flow_report north south east west) ∧
    dom (flow_report north south east west) = list_to_set directions ∧
    Forall (λ v, v = (-1)%Q ∨ (0 <= v)%Q) [north; south; east; west].
Proof.
  apply (approved_report_shape sample_env "a1" sample_store).
  reflexivity.
Defined.

End RunsMore.
